(** * sql-scripter: the query-tree-to-SQL compiler ([sql-builder.ts])

    A shallow embedding of [buildSQL] and of the helpers it calls
    ([resolveConditionValue], [buildWhereClause], [buildSelect],
    [buildInsert], [buildUpdate], [buildDelete]) together with the document
    model of [types.ts], followed by the properties of the compiler.

    Modelling conventions.
    - A JavaScript string is a [string]: a sequence of 8-bit code units.
      A template literal is a chain of [+:+].
    - [Record<string, QueryNode>] is a [gmap string QueryNode]: the own
      properties of the object.  The builders come in two layers.  The
      first returns a [string] and reads [subQueries[k]] among the own
      keys: it is the compiler on the documents the editor makes, whose ids
      come from [genId].  The second, [Exec], returns an [option string]
      ([None] is a thrown [TypeError]) and reads [subQueries[k]] as
      JavaScript does, members inherited from [Object.prototype] included
      ([getProperty]).  The two agree on every node in which no subQueryId
      is the name of an inherited member ([conventional],
      [Exec_buildSQL_conventional]).
    - A string is truthy when it is not empty; the optional [subQueryId] is
      an [option string], truthy when it is [Some] non-empty string.
    - [buildSQL] calls itself through [resolveConditionValue]; the helpers
      take that recursive reference as the section variable [self].
    - The updaters of the editor ([query-node-editor.tsx]) are given as the
      node they hand to [onChange], with the ids they draw from [genId] as
      arguments; [countSubQueries] and the export file name come from the
      page, and the flat builders from the page that came before it. *)

From Stdlib Require Import Ascii String.
From stdpp Require Import gmap strings list fin_maps.

Local Open Scope string_scope.
Local Open Scope stdpp_scope.

#[local] Arguments String.append !s1 s2 / : simpl nomatch.

(** ** JavaScript string primitives *)

Module JS.

(** The line feed of ["\n"]. *)
Definition LF : ascii := "010"%char.
Definition nl : string := String LF "".

(** [s.repeat(n)] *)
Fixpoint repeat (s : string) (n : nat) : string :=
  match n with
  | 0 => ""
  | S n' => s +:+ repeat s n'
  end.

(** Truthiness of a string: [!!s]. *)
Definition truthy (s : string) : bool :=
  match s with
  | "" => false
  | String _ _ => true
  end.

(** [a || b] on strings. *)
Definition or_else (a b : string) : string :=
  if truthy a then a else b.

(** White space of ECMAScript in the 8-bit range: TAB, LF, VT, FF, CR,
    SP and NBSP. *)
Definition is_white (c : ascii) : bool :=
  match c with
  | "009" | "010" | "011" | "012" | "013" | " " | "160" => true
  | _ => false
  end%char.

(** [s.trimStart()] *)
Fixpoint trimStart (s : string) : string :=
  match s with
  | "" => ""
  | String c s' => if is_white c then trimStart s' else s
  end.

(** [s.trimEnd()] *)
Fixpoint trimEnd (s : string) : string :=
  match s with
  | "" => ""
  | String c s' =>
      match trimEnd s' with
      | "" => if is_white c then "" else String c ""
      | t => String c t
      end
  end.

(** [s.trim()] *)
Definition trim (s : string) : string := trimEnd (trimStart s).

(** [s.split(c)] for a one-character separator; never the empty list. *)
Fixpoint split (c : ascii) (s : string) : list string :=
  match s with
  | "" => [""]
  | String a s' =>
      if Ascii.eqb a c then "" :: split c s'
      else match split c s' with
           | l :: ls => String a l :: ls
           | [] => [String a ""]
           end
  end.

(** [l.join(sep)] *)
Fixpoint join (sep : string) (l : list string) : string :=
  match l with
  | [] => ""
  | [x] => x
  | x :: xs => x +:+ sep +:+ join sep xs
  end.

(** [s.startsWith(kw)] *)
Fixpoint startsWith (kw s : string) : bool :=
  match kw, s with
  | "", _ => true
  | String _ _, "" => false
  | String a kw', String b s' => Ascii.eqb a b && startsWith kw' s'
  end.

(** [s.includes(kw)] *)
Fixpoint includes (kw s : string) : bool :=
  startsWith kw s ||
  match s with
  | "" => false
  | String _ s' => includes kw s'
  end.

(** [s.endsWith(t)] *)
Fixpoint endsWith (t s : string) : bool :=
  String.eqb t s ||
  match s with
  | "" => false
  | String _ s' => endsWith t s'
  end.

End JS.

(** ** The document model ([types.ts]) *)

Inductive Operator :=
  | OpEq | OpNe | OpGt | OpLt | OpGe | OpLe
  | OpLike | OpIn | OpNotIn
  | OpIsNull | OpIsNotNull
  | OpExists | OpNotExists.

Inductive LogicGate := AND | OR.
Inductive SQLOperation := SELECT | INSERT | UPDATE | DELETE.
Inductive JoinType := INNER | LEFT | RIGHT | FULL_OUTER.
Inductive Direction := ASC | DESC.

(** The string each member of a string-literal union stands for. *)
Definition operator_text (o : Operator) : string :=
  match o with
  | OpEq => "=" | OpNe => "!=" | OpGt => ">" | OpLt => "<"
  | OpGe => ">=" | OpLe => "<="
  | OpLike => "LIKE" | OpIn => "IN" | OpNotIn => "NOT IN"
  | OpIsNull => "IS NULL" | OpIsNotNull => "IS NOT NULL"
  | OpExists => "EXISTS" | OpNotExists => "NOT EXISTS"
  end.

Definition logic_text (g : LogicGate) : string :=
  match g with AND => "AND" | OR => "OR" end.

Definition join_type_text (t : JoinType) : string :=
  match t with
  | INNER => "INNER" | LEFT => "LEFT" | RIGHT => "RIGHT"
  | FULL_OUTER => "FULL OUTER"
  end.

Definition direction_text (d : Direction) : string :=
  match d with ASC => "ASC" | DESC => "DESC" end.

Record Condition := mkCondition {
  cond_id : string;
  cond_column : string;
  cond_operator : Operator;
  cond_value : string;
  cond_logic : LogicGate;
  cond_subQueryId : option string
}.

Record JoinClause := mkJoinClause {
  join_id : string;
  join_type : JoinType;
  join_table : string;
  join_onLeft : string;
  join_onRight : string
}.

Record OrderByClause := mkOrderByClause {
  order_id : string;
  order_column : string;
  order_direction : Direction
}.

Record ColumnValuePair := mkColumnValuePair {
  pair_id : string;
  pair_column : string;
  pair_value : string
}.

#[warnings="-register-all"]
Inductive QueryNode := mkQueryNode {
  node_id : string;
  operation : SQLOperation;
  table : string;
  selectColumns : string;
  pairs : list ColumnValuePair;
  conditions : list Condition;
  joins : list JoinClause;
  orderBy : list OrderByClause;
  limit : string;
  subQueries : gmap string QueryNode
}.

(** The longest chain of nested subqueries below a node, plus one. *)
Fixpoint height (node : QueryNode) : nat :=
  S (map_fold (fun _ h acc => Nat.max h acc) 0 (height <$> subQueries node)).

(** ** The compiler ([sql-builder.ts]) *)

(** [cond.subQueryId && subQueries[cond.subQueryId]] among the own keys
    of the object: the child the condition refers to, when the id is set
    and is a key of the map. The read through the prototype chain is
    [getProperty], used by the builders of [Exec]. *)
Definition attachedSubQuery (cond : Condition)
    (subQueries : gmap string QueryNode) : option QueryNode :=
  match cond_subQueryId cond with
  | Some k => if JS.truthy k then subQueries !! k else None
  | None => None
  end.

(** [!!c.subQueryId] *)
Definition isSubQuery (c : Condition) : bool :=
  match cond_subQueryId c with
  | Some k => JS.truthy k
  | None => false
  end.

(** [["IS NULL", "IS NOT NULL"].includes(c.operator)] *)
Definition isNullOp (c : Condition) : bool :=
  match cond_operator c with
  | OpIsNull | OpIsNotNull => true
  | _ => false
  end.

(** [["EXISTS", "NOT EXISTS"].includes(c.operator)] *)
Definition isExistsOp (c : Condition) : bool :=
  match cond_operator c with
  | OpExists | OpNotExists => true
  | _ => false
  end.

(** [c.column || "column"] *)
Definition col (c : Condition) : string :=
  JS.or_else (cond_column c) "column".

(** [subSQL.split("\n").map((l, i) => i === 0 ? l : pad + l).join("\n")] *)
Definition reindent (pad : string) (subSQL : string) : string :=
  JS.join JS.nl
    (imap (fun i l => if decide (i = 0) then l else pad +:+ l)
          (JS.split JS.LF subSQL)).

Section Builders.

(** The recursive reference to [buildSQL]. *)
Variable self : QueryNode -> nat -> string.

Definition resolveConditionValue (cond : Condition)
    (subQueries : gmap string QueryNode) (depth : nat) : string :=
  match attachedSubQuery cond subQueries with
  | Some child =>
      let subSQL := self child (depth + 2) in
      let indented := reindent (JS.repeat "  " (depth + 2)) subSQL in
      "(" +:+ JS.nl +:+ JS.repeat "  " (depth + 2) +:+ indented +:+ JS.nl
        +:+ JS.repeat "  " (depth + 1) +:+ ")"
  | None => "'" +:+ cond_value cond +:+ "'"
  end.

(** The [clause] variable of the callback in [buildWhereClause]. *)
Definition conditionClause (c : Condition)
    (subQueries : gmap string QueryNode) (depth : nat) : string :=
  if isExistsOp c then
    let val := resolveConditionValue c subQueries depth in
    operator_text (cond_operator c) +:+ " " +:+ val
  else if isNullOp c then
    col c +:+ " " +:+ operator_text (cond_operator c)
  else if isSubQuery c then
    let val := resolveConditionValue c subQueries depth in
    col c +:+ " " +:+ operator_text (cond_operator c) +:+ " " +:+ val
  else
    col c +:+ " " +:+ operator_text (cond_operator c) +:+ " '"
      +:+ cond_value c +:+ "'".

(** The callback of [conditions.map] in [buildWhereClause]. *)
Definition conditionPart (subQueries : gmap string QueryNode) (depth : nat)
    (i : nat) (c : Condition) : string :=
  let clause := conditionClause c subQueries depth in
  if decide (i = 0) then clause
  else logic_text (cond_logic c) +:+ " " +:+ clause.

Definition buildWhereClause (conditions : list Condition)
    (subQueries : gmap string QueryNode) (depth : nat)
    (indent inner : string) : string :=
  match conditions with
  | [] => ""
  | _ =>
      let parts :=
        JS.join (JS.nl +:+ inner)
                (imap (conditionPart subQueries depth) conditions) in
      JS.nl +:+ indent +:+ "WHERE " +:+ parts
  end.

(** One turn of the [for (const j of node.joins)] loop of [buildSelect]. *)
Definition appendJoin (indent : string) (sql : string) (j : JoinClause)
    : string :=
  if JS.truthy (join_table j) && JS.truthy (join_onLeft j)
     && JS.truthy (join_onRight j)
  then sql +:+ JS.nl +:+ indent +:+ join_type_text (join_type j)
         +:+ " JOIN " +:+ join_table j +:+ " ON " +:+ join_onLeft j
         +:+ " = " +:+ join_onRight j
  else sql.

(** The [cols] of the ORDER BY block of [buildSelect]. *)
Definition orderByColumns (orderBy : list OrderByClause) : string :=
  JS.join ", "
    (map (fun o => order_column o +:+ " " +:+ direction_text (order_direction o))
         (filter (fun o => JS.truthy (order_column o) = true) orderBy)).

Definition buildSelect (node : QueryNode) (depth : nat)
    (indent inner : string) : string :=
  if negb (JS.truthy (table node)) then
    indent +:+ "-- Please fill in the table name"
  else
    let cols := JS.or_else (JS.trim (selectColumns node)) "*" in
    let sql := "SELECT " +:+ cols +:+ JS.nl +:+ indent +:+ "FROM "
                 +:+ table node in
    let sql := fold_left (appendJoin indent) (joins node) sql in
    let sql := sql +:+ buildWhereClause (conditions node) (subQueries node)
                         depth indent inner in
    let sql :=
      match orderBy node with
      | [] => sql
      | _ =>
          let cols := orderByColumns (orderBy node) in
          if JS.truthy cols
          then sql +:+ JS.nl +:+ indent +:+ "ORDER BY " +:+ cols
          else sql
      end in
    let sql :=
      if JS.truthy (limit node)
      then sql +:+ JS.nl +:+ indent +:+ "LIMIT " +:+ limit node
      else sql in
    sql +:+ ";".

(** [node.pairs.filter((p) => p.column)] *)
Definition filledPairs (pairs : list ColumnValuePair)
    : list ColumnValuePair :=
  filter (fun p => JS.truthy (pair_column p) = true) pairs.

Definition buildInsert (node : QueryNode) : string :=
  if negb (JS.truthy (table node)) then "-- Please fill in the table name"
  else
    let filled := filledPairs (pairs node) in
    match filled with
    | [] => "-- Add at least one column"
    | _ =>
        let cols := JS.join ", " (map pair_column filled) in
        let vals :=
          JS.join ", " (map (fun p => "'" +:+ pair_value p +:+ "'") filled) in
        "INSERT INTO " +:+ table node +:+ " (" +:+ cols +:+ ")" +:+ JS.nl
          +:+ "VALUES (" +:+ vals +:+ ");"
    end.

Definition buildUpdate (node : QueryNode) (depth : nat)
    (indent inner : string) : string :=
  if negb (JS.truthy (table node)) then
    indent +:+ "-- Please fill in the table name"
  else
    let filled := filledPairs (pairs node) in
    match filled with
    | [] => indent +:+ "-- Add at least one SET column"
    | _ =>
        let sets :=
          JS.join ("," +:+ JS.nl)
            (map (fun p => inner +:+ pair_column p +:+ " = '"
                             +:+ pair_value p +:+ "'") filled) in
        let sql := "UPDATE " +:+ table node +:+ JS.nl +:+ indent +:+ "SET"
                     +:+ JS.nl +:+ sets in
        let sql := sql +:+ buildWhereClause (conditions node)
                             (subQueries node) depth indent inner in
        sql +:+ ";"
    end.

Definition buildDelete (node : QueryNode) (depth : nat)
    (indent inner : string) : string :=
  if negb (JS.truthy (table node)) then
    indent +:+ "-- Please fill in the table name"
  else
    let sql := "DELETE FROM " +:+ table node in
    let sql := sql +:+ buildWhereClause (conditions node) (subQueries node)
                         depth indent inner in
    sql +:+ ";".

(** The body of [buildSQL], its recursive calls going to [self]. *)
Definition buildSQL_body (node : QueryNode) (depth : nat) : string :=
  let indent := JS.repeat "  " depth in
  let inner := JS.repeat "  " (depth + 1) in
  match operation node with
  | SELECT => buildSelect node depth indent inner
  | INSERT => buildInsert node
  | UPDATE => buildUpdate node depth indent inner
  | DELETE => buildDelete node depth indent inner
  end.

End Builders.

(** [buildSQL] unrolled [fuel] times; below that the calls go to [seed]. *)
Fixpoint buildSQL_fuel (seed : QueryNode -> nat -> string) (fuel : nat)
    : QueryNode -> nat -> string :=
  match fuel with
  | 0 => seed
  | S fuel' => buildSQL_body (buildSQL_fuel seed fuel')
  end.

(** [buildSQL(node, depth)]: the nesting of a node is finite, so unrolling
    the body [height node] times reaches every recursive call. *)
Definition buildSQL (node : QueryNode) (depth : nat) : string :=
  buildSQL_fuel (fun _ _ => "") (height node) node depth.

(** [makeEmptyNode(operation)], the ids left empty. *)
Definition makeEmptyNode (operation : SQLOperation) : QueryNode :=
  {| node_id := ""; operation := operation; table := "";
     selectColumns := "*";
     pairs := [ {| pair_id := ""; pair_column := ""; pair_value := "" |} ];
     conditions := []; joins := []; orderBy := []; limit := "";
     subQueries := ∅ |}.

(** ** The scenarios of the specification *)

Module Scenario.

Definition A : QueryNode :=
  {| node_id := "root"; operation := SELECT; table := "users";
     selectColumns := "*"; pairs := []; conditions := []; joins := [];
     orderBy := []; limit := ""; subQueries := ∅ |}.

Definition C : QueryNode :=
  {| node_id := "root"; operation := INSERT; table := "users";
     selectColumns := "*";
     pairs := [ {| pair_id := "p1"; pair_column := "name";
                   pair_value := "Bo" |} ];
     conditions := []; joins := []; orderBy := []; limit := "";
     subQueries := ∅ |}.

Definition D : QueryNode :=
  {| node_id := "root"; operation := DELETE; table := "users";
     selectColumns := "*"; pairs := [];
     conditions := [ {| cond_id := "c1"; cond_column := "id";
                        cond_operator := OpEq; cond_value := "5";
                        cond_logic := AND; cond_subQueryId := None |} ];
     joins := []; orderBy := []; limit := ""; subQueries := ∅ |}.

Definition vip : QueryNode :=
  {| node_id := "sq1"; operation := SELECT; table := "vip_customers";
     selectColumns := "id"; pairs := []; conditions := []; joins := [];
     orderBy := []; limit := ""; subQueries := ∅ |}.

Definition E : QueryNode :=
  {| node_id := "root"; operation := SELECT; table := "orders";
     selectColumns := "*"; pairs := [];
     conditions :=
       [ {| cond_id := "c1"; cond_column := "status";
            cond_operator := OpIsNull; cond_value := "";
            cond_logic := AND; cond_subQueryId := None |};
         {| cond_id := "c2"; cond_column := "customer_id";
            cond_operator := OpIn; cond_value := "";
            cond_logic := OR; cond_subQueryId := Some "sq1" |} ];
     joins := []; orderBy := []; limit := "";
     subQueries := {[ "sq1" := vip ]} |}.

End Scenario.

(** An INSERT node that carries every clause INSERT does not render. *)
Module InsertWithClauses.

Definition node (table : string) : QueryNode :=
  {| node_id := "n"; operation := INSERT; table := table;
     selectColumns := "*";
     pairs := [ {| pair_id := "p"; pair_column := "name";
                   pair_value := "Bo" |} ];
     conditions := [ {| cond_id := "c"; cond_column := "id";
                        cond_operator := OpEq; cond_value := "5";
                        cond_logic := AND; cond_subQueryId := None |} ];
     joins := [ {| join_id := "j"; join_type := LEFT; join_table := "teams";
                   join_onLeft := "users.team"; join_onRight := "teams.id" |} ];
     orderBy := [ {| order_id := "o"; order_column := "name";
                     order_direction := DESC |} ];
     limit := "10"; subQueries := ∅ |}.

End InsertWithClauses.

(** A text given line by line. *)
Definition text (lines : list string) : string := JS.join JS.nl lines.

(** ** The vocabulary of the properties *)

(** What a builder returns depends on [self] only at the children stored
    in the map it is given, each called at [depth + 2]. *)
Definition agree_below (subQueries : gmap string QueryNode) (depth : nat)
    (f g : QueryNode -> nat -> string) : Prop :=
  forall k child, subQueries !! k = Some child ->
    f child (depth + 2) = g child (depth + 2).

(** [strip bol s] drops the white space that opens each line of [s];
    [bol] tells whether [s] starts at the beginning of a line. *)
Fixpoint strip (bol : bool) (s : string) : string :=
  match s with
  | "" => ""
  | String c s' =>
      if Ascii.eqb c JS.LF then String c (strip true s')
      else if bol && JS.is_white c then strip true s'
      else String c (strip false s')
  end.

(** Whether the position after [s] is still inside the white space that
    opens a line. *)
Fixpoint at_start (bol : bool) (s : string) : bool :=
  match s with
  | "" => bol
  | String c s' =>
      if Ascii.eqb c JS.LF then at_start true s'
      else if bol && JS.is_white c then at_start true s'
      else at_start false s'
  end.

(** Two texts that differ only in the white space opening their lines. *)
Definition sim (bol : bool) (s t : string) : Prop :=
  strip bol s = strip bol t /\ at_start bol s = at_start bol t.

(** Pieces that are alike wherever on a line they start. *)
Definition sim_any (s t : string) : Prop := forall bol, sim bol s t.

(** The texts [self] gives for the children of a map differ in indentation
    only, whatever the depths. *)
Definition sim_below (self : QueryNode -> nat -> string)
    (subs : gmap string QueryNode) : Prop :=
  forall k child, subs !! k = Some child ->
    forall d1 d2, sim true (self child d1) (self child d2).

(** Whether the character [c] occurs in [s]. *)
Fixpoint mentions (c : ascii) (s : string) : bool :=
  match s with
  | "" => false
  | String a s' => Ascii.eqb c a || mentions c s'
  end.

(** Whether [c] is the last character of [s]. *)
Fixpoint ends_in (c : ascii) (s : string) : bool :=
  match s with
  | "" => false
  | String a "" => Ascii.eqb a c
  | String _ s' => ends_in c s'
  end.

(** Whether [kw] is empty or opens with [c]. *)
Definition begins_with (c : ascii) (kw : string) : bool :=
  match kw with
  | "" => true
  | String a _ => Ascii.eqb a c
  end.

(** The four clause keywords INSERT never emits. *)
Definition clauseKeywords : list string := ["WHERE"; "JOIN"; "ORDER BY"; "LIMIT"].

(** The text of [buildInsert] once the table and a pair are filled in. *)
Definition insertText (node : QueryNode) : string :=
  "INSERT INTO " +:+ table node +:+ " ("
    +:+ JS.join ", " (map pair_column (filledPairs (pairs node)))
    +:+ ")" +:+ JS.nl +:+ "VALUES ("
    +:+ JS.join ", "
          (map (fun p => "'" +:+ pair_value p +:+ "'")
               (filledPairs (pairs node)))
    +:+ ");".

(** None of the strings the author typed into the node holds [kw]. *)
Definition keyword_free (kw : string) (node : QueryNode) : Prop :=
  JS.includes kw (table node) = false
  /\ JS.includes kw (selectColumns node) = false
  /\ JS.includes kw (limit node) = false
  /\ Forall (fun p => JS.includes kw (pair_column p) = false
                      /\ JS.includes kw (pair_value p) = false) (pairs node)
  /\ Forall (fun j => JS.includes kw (join_table j) = false
                      /\ JS.includes kw (join_onLeft j) = false
                      /\ JS.includes kw (join_onRight j) = false) (joins node)
  /\ Forall (fun o => JS.includes kw (order_column o) = false) (orderBy node).

(** The subquery operand of [resolveConditionValue]: the text of the
    child compiled two levels down, every line of it after the first
    padded, the whole padded once more and closed by a parenthesis one
    level down. *)
Definition wrapSubQuery (child : QueryNode) (depth : nat) : string :=
  "(" +:+ JS.nl +:+ JS.repeat "  " (depth + 2)
    +:+ reindent (JS.repeat "  " (depth + 2)) (buildSQL child (depth + 2))
    +:+ JS.nl +:+ JS.repeat "  " (depth + 1) +:+ ")".

(** A string made of white space only. *)
Fixpoint all_white (s : string) : bool :=
  match s with
  | "" => true
  | String c s' => JS.is_white c && all_white s'
  end.

(** ** The editor ([query-node-editor.tsx]) *)

(** [{ ...node, pairs }], [{ ...node, conditions }] and the like: a copy of
    the node with one field replaced. *)
Definition withPairs (node : QueryNode) (ps : list ColumnValuePair)
    : QueryNode :=
  {| node_id := node_id node; operation := operation node;
     table := table node; selectColumns := selectColumns node;
     pairs := ps; conditions := conditions node; joins := joins node;
     orderBy := orderBy node; limit := limit node;
     subQueries := subQueries node |}.

Definition withConditions (node : QueryNode) (cs : list Condition)
    : QueryNode :=
  {| node_id := node_id node; operation := operation node;
     table := table node; selectColumns := selectColumns node;
     pairs := pairs node; conditions := cs; joins := joins node;
     orderBy := orderBy node; limit := limit node;
     subQueries := subQueries node |}.

Definition withJoins (node : QueryNode) (js : list JoinClause) : QueryNode :=
  {| node_id := node_id node; operation := operation node;
     table := table node; selectColumns := selectColumns node;
     pairs := pairs node; conditions := conditions node; joins := js;
     orderBy := orderBy node; limit := limit node;
     subQueries := subQueries node |}.

Definition withOrderBy (node : QueryNode) (os : list OrderByClause)
    : QueryNode :=
  {| node_id := node_id node; operation := operation node;
     table := table node; selectColumns := selectColumns node;
     pairs := pairs node; conditions := conditions node; joins := joins node;
     orderBy := os; limit := limit node;
     subQueries := subQueries node |}.

Definition withSubQueries (node : QueryNode) (subs : gmap string QueryNode)
    : QueryNode :=
  {| node_id := node_id node; operation := operation node;
     table := table node; selectColumns := selectColumns node;
     pairs := pairs node; conditions := conditions node; joins := joins node;
     orderBy := orderBy node; limit := limit node;
     subQueries := subs |}.

(** [makeEmptyNode(operation)] with the two ids that [Math.random] gives
    it: the id of the node and the id of its blank pair. *)
Definition makeEmptyNodeWith (id pairId : string) (operation : SQLOperation)
    : QueryNode :=
  {| node_id := id; operation := operation; table := "";
     selectColumns := "*";
     pairs := [ {| pair_id := pairId; pair_column := ""; pair_value := "" |} ];
     conditions := []; joins := []; orderBy := []; limit := "";
     subQueries := ∅ |}.

(** [SUBQUERY_OPERATORS] of [types.ts]. *)
Definition SUBQUERY_OPERATORS : list Operator :=
  [OpIn; OpNotIn; OpExists; OpNotExists].

#[global] Instance Operator_eq_dec : EqDecision Operator.
Proof. solve_decision. Defined.

(** The updaters of [QueryNodeEditor]. Each one is given here as the node
    it hands to [onChange]; the ids it draws from [genId] are arguments. *)
Module Editor.

Definition MAX_DEPTH : nat := 3.

(** [depth < MAX_DEPTH] *)
Definition canNest (depth : nat) : bool := Nat.ltb depth MAX_DEPTH.

Definition addPair (newId : string) (node : QueryNode) : QueryNode :=
  withPairs node
    (pairs node
       ++ [ {| pair_id := newId; pair_column := ""; pair_value := "" |} ]).

Definition removePair (id : string) (node : QueryNode) : QueryNode :=
  withPairs node (filter (fun p => pair_id p <> id) (pairs node)).

Definition addCondition (newId : string) (node : QueryNode) : QueryNode :=
  withConditions node
    (conditions node
       ++ [ {| cond_id := newId; cond_column := ""; cond_operator := OpEq;
               cond_value := ""; cond_logic := AND;
               cond_subQueryId := None |} ]).

Definition removeCondition (id : string) (node : QueryNode) : QueryNode :=
  let cond := List.find (fun c => String.eqb (cond_id c) id)
                        (conditions node) in
  let updated :=
    withConditions node (filter (fun c => cond_id c <> id) (conditions node)) in
  match cond with
  | Some c =>
      match cond_subQueryId c with
      | Some k =>
          if JS.truthy k
          then withSubQueries updated (delete k (subQueries updated))
          else updated
      | None => updated
      end
  | None => updated
  end.

(** [{ ...c, subQueryId: sq.id }] *)
Definition setSubQueryId (c : Condition) (sq : option string) : Condition :=
  {| cond_id := cond_id c; cond_column := cond_column c;
     cond_operator := cond_operator c; cond_value := cond_value c;
     cond_logic := cond_logic c; cond_subQueryId := sq |}.

(** [{ ...c, subQueryId: undefined, value: "" }] *)
Definition clearSubQuery (c : Condition) : Condition :=
  {| cond_id := cond_id c; cond_column := cond_column c;
     cond_operator := cond_operator c; cond_value := "";
     cond_logic := cond_logic c; cond_subQueryId := None |}.

(** [{ ...c, operator: op }] *)
Definition setOperator (c : Condition) (op : Operator) : Condition :=
  {| cond_id := cond_id c; cond_column := cond_column c;
     cond_operator := op; cond_value := cond_value c;
     cond_logic := cond_logic c; cond_subQueryId := cond_subQueryId c |}.

(** [{ ...c, logic }] *)
Definition setLogic (c : Condition) (g : LogicGate) : Condition :=
  {| cond_id := cond_id c; cond_column := cond_column c;
     cond_operator := cond_operator c; cond_value := cond_value c;
     cond_logic := g; cond_subQueryId := cond_subQueryId c |}.

Definition attachSubQuery (sqId pairId : string) (condId : string)
    (node : QueryNode) : QueryNode :=
  let sq := makeEmptyNodeWith sqId pairId SELECT in
  withSubQueries
    (withConditions node
       (map (fun c => if decide (cond_id c = condId)
                      then setSubQueryId c (Some (node_id sq)) else c)
            (conditions node)))
    (<[node_id sq := sq]> (subQueries node)).

Definition detachSubQuery (condId sqId : string) (node : QueryNode)
    : QueryNode :=
  let sqs := delete sqId (subQueries node) in
  withSubQueries
    (withConditions node
       (map (fun c => if decide (cond_id c = condId) then clearSubQuery c
                      else c)
            (conditions node)))
    sqs.

Definition updateSubQuery (sqId : string) (updated : QueryNode)
    (node : QueryNode) : QueryNode :=
  withSubQueries node (<[sqId := updated]> (subQueries node)).

Definition addJoin (newId : string) (node : QueryNode) : QueryNode :=
  withJoins node
    (joins node
       ++ [ {| join_id := newId; join_type := INNER; join_table := "";
               join_onLeft := ""; join_onRight := "" |} ]).

Definition removeJoin (id : string) (node : QueryNode) : QueryNode :=
  withJoins node (filter (fun j => join_id j <> id) (joins node)).

Definition addOrderBy (newId : string) (node : QueryNode) : QueryNode :=
  withOrderBy node
    (orderBy node
       ++ [ {| order_id := newId; order_column := "";
               order_direction := ASC |} ]).

Definition removeOrderBy (id : string) (node : QueryNode) : QueryNode :=
  withOrderBy node (filter (fun o => order_id o <> id) (orderBy node)).

(** The [onChange] of the operator [<select>] of the condition [cond]:
    a subquery operator attaches a fresh subquery when the editor may
    nest and the condition has none; otherwise only the operator
    changes ([updateCondition(cond.id, { operator: op })]). *)
Definition onOperatorChange (depth : nat) (sqId pairId : string)
    (cond : Condition) (op : Operator) (node : QueryNode) : QueryNode :=
  let needsSubQ := bool_decide (op ∈ SUBQUERY_OPERATORS) in
  if needsSubQ && canNest depth && negb (isSubQuery cond) then
    let sq := makeEmptyNodeWith sqId pairId SELECT in
    withSubQueries
      (withConditions node
         (map (fun c => if decide (cond_id c = cond_id cond)
                        then setSubQueryId (setOperator c op)
                               (Some (node_id sq))
                        else c)
              (conditions node)))
      (<[node_id sq := sq]> (subQueries node))
  else
    withConditions node
      (map (fun c => if decide (cond_id c = cond_id cond)
                     then setOperator c op else c)
           (conditions node)).

End Editor.

(** ** The page ([page.tsx]) *)

Module Page.

(** [countSubQueries(node)]: the subquery nodes below a node. *)
Fixpoint countSubQueries (node : QueryNode) : nat :=
  map_fold (fun _ n acc => acc + 1 + n) 0
           (countSubQueries <$> subQueries node).

(** [s.replace(/\s+/g, "_")]; [run] tells whether the character before
    was white space, already replaced. *)
Fixpoint underscoreSpaces (run : bool) (s : string) : string :=
  match s with
  | "" => ""
  | String c s' =>
      if JS.is_white c
      then (if run then underscoreSpaces true s'
            else String "_" (underscoreSpaces true s'))
      else String c (underscoreSpaces false s')
  end.

(** The [a.download] of [handleExport]. *)
Definition exportFileName (queryName : string) : string :=
  underscoreSpaces false (JS.or_else queryName "my_query")
    +:+ ".sqlforge.json".

End Page.

(** ** The flat builders of the first page *)

(** The page that came before the query tree builds its SQL from flat
    state, without subqueries and without a depth. *)
Module Legacy.

(** The WHERE lines, written out three times in the source. *)
Definition whereParts (conditions : list Condition) : string :=
  JS.join (JS.nl +:+ "  ")
    (imap (fun i c =>
             let col := JS.or_else (cond_column c) "column" in
             let val := if isNullOp c then ""
                        else " '" +:+ cond_value c +:+ "'" in
             let clause := col +:+ " " +:+ operator_text (cond_operator c)
                             +:+ val in
             if decide (i = 0) then clause
             else logic_text (cond_logic c) +:+ " " +:+ clause)
          conditions).

(** [if (conditions.length > 0) { ...; sql += `\nWHERE ${parts}` }] *)
Definition appendWhere (sql : string) (conditions : list Condition)
    : string :=
  match conditions with
  | [] => sql
  | _ => sql +:+ JS.nl +:+ "WHERE " +:+ whereParts conditions
  end.

Definition buildSelect (table columns : string)
    (conditions : list Condition) (joins : list JoinClause)
    (orderBy : list OrderByClause) (limit : string) : string :=
  if negb (JS.truthy table) then "-- Please fill in the table name"
  else
    let cols := JS.or_else (JS.trim columns) "*" in
    let sql := "SELECT " +:+ cols +:+ JS.nl +:+ "FROM " +:+ table in
    let sql :=
      fold_left
        (fun sql j =>
           if JS.truthy (join_table j) && JS.truthy (join_onLeft j)
              && JS.truthy (join_onRight j)
           then sql +:+ JS.nl +:+ join_type_text (join_type j) +:+ " JOIN "
                  +:+ join_table j +:+ " ON " +:+ join_onLeft j +:+ " = "
                  +:+ join_onRight j
           else sql)
        joins sql in
    let sql := appendWhere sql conditions in
    let sql :=
      match orderBy with
      | [] => sql
      | _ =>
          sql +:+ JS.nl +:+ "ORDER BY "
            +:+ JS.join ", "
                  (map (fun o => order_column o +:+ " "
                                   +:+ direction_text (order_direction o))
                       (filter (fun o => JS.truthy (order_column o) = true)
                               orderBy))
      end in
    let sql :=
      if JS.truthy limit then sql +:+ JS.nl +:+ "LIMIT " +:+ limit
      else sql in
    sql +:+ ";".

Definition buildInsert (table : string) (pairs : list ColumnValuePair)
    : string :=
  if negb (JS.truthy table) then "-- Please fill in the table name"
  else
    let filled := filter (fun p => JS.truthy (pair_column p) = true) pairs in
    match filled with
    | [] => "-- Add at least one column"
    | _ =>
        let cols := JS.join ", " (map pair_column filled) in
        let vals :=
          JS.join ", " (map (fun p => "'" +:+ pair_value p +:+ "'") filled) in
        "INSERT INTO " +:+ table +:+ " (" +:+ cols +:+ ")" +:+ JS.nl
          +:+ "VALUES (" +:+ vals +:+ ");"
    end.

Definition buildUpdate (table : string) (pairs : list ColumnValuePair)
    (conditions : list Condition) : string :=
  if negb (JS.truthy table) then "-- Please fill in the table name"
  else
    let filled := filter (fun p => JS.truthy (pair_column p) = true) pairs in
    match filled with
    | [] => "-- Add at least one SET column"
    | _ =>
        let sets :=
          JS.join ("," +:+ JS.nl)
            (map (fun p => "  " +:+ pair_column p +:+ " = '"
                             +:+ pair_value p +:+ "'") filled) in
        let sql := "UPDATE " +:+ table +:+ JS.nl +:+ "SET" +:+ JS.nl
                     +:+ sets in
        let sql := appendWhere sql conditions in
        sql +:+ ";"
    end.

Definition buildDelete (table : string) (conditions : list Condition)
    : string :=
  if negb (JS.truthy table) then "-- Please fill in the table name"
  else
    let sql := "DELETE FROM " +:+ table in
    let sql := appendWhere sql conditions in
    sql +:+ ";".

(** The derived [sql] of the page, its state read from the fields of a
    node. *)
Definition sql (node : QueryNode) : string :=
  match operation node with
  | SELECT => buildSelect (table node) (selectColumns node) (conditions node)
                (joins node) (orderBy node) (limit node)
  | INSERT => buildInsert (table node) (pairs node)
  | UPDATE => buildUpdate (table node) (pairs node) (conditions node)
  | DELETE => buildDelete (table node) (conditions node)
  end.

End Legacy.

(** ** The vocabulary of the further properties *)

(** The node without the rows the compiler does not render: pairs
    without a column, joins with an empty field, order-by entries
    without a column. *)
Definition prune (node : QueryNode) : QueryNode :=
  withOrderBy
    (withJoins
       (withPairs node (filledPairs (pairs node)))
       (filter (fun j => JS.truthy (join_table j) && JS.truthy (join_onLeft j)
                         && JS.truthy (join_onRight j) = true)
               (joins node)))
    (filter (fun o => JS.truthy (order_column o) = true) (orderBy node)).

(** Whether the compiler renders a statement for the node rather than a
    placeholder comment. *)
Definition rendersStatement (node : QueryNode) : bool :=
  JS.truthy (table node)
  && match operation node with
     | SELECT | DELETE => true
     | INSERT | UPDATE =>
         match filledPairs (pairs node) with [] => false | _ => true end
     end.

(** Whether a string holds a white-space character. *)
Fixpoint has_white (s : string) : bool :=
  match s with
  | "" => false
  | String c s' => JS.is_white c || has_white s'
  end.

(** The conditions and the subquery map of a node refer to one another:
    condition ids are distinct, a subQueryId is never empty and is a key
    of the map, every key of the map is the subQueryId of a condition,
    and of one only. *)
Record linked (node : QueryNode) : Prop := {
  linked_ids : NoDup (map cond_id (conditions node));
  linked_truthy : forall c k,
    c ∈ conditions node -> cond_subQueryId c = Some k -> k <> "";
  linked_resolves : forall c k,
    c ∈ conditions node -> cond_subQueryId c = Some k ->
    is_Some (subQueries node !! k);
  linked_referenced : forall k,
    is_Some (subQueries node !! k) ->
    exists c, c ∈ conditions node /\ cond_subQueryId c = Some k;
  linked_once : forall c1 c2 k,
    c1 ∈ conditions node -> c2 ∈ conditions node ->
    cond_subQueryId c1 = Some k -> cond_subQueryId c2 = Some k -> c1 = c2
}.

(** ** The compiler as JavaScript runs it *)

(** The members every plain object inherits from [Object.prototype]. *)
Definition inheritedNames : list string :=
  [ "constructor"; "hasOwnProperty"; "isPrototypeOf"; "propertyIsEnumerable";
    "toLocaleString"; "toString"; "valueOf"; "__proto__";
    "__defineGetter__"; "__defineSetter__"; "__lookupGetter__";
    "__lookupSetter__" ].

(** What the property read [subQueries[k]] gives: the node stored under an
    own key; a member of [Object.prototype] (a function or an object,
    truthy, and no query node); or [undefined]. *)
Inductive Property :=
  | OwnNode (child : QueryNode)
  | InheritedMember
  | NoProperty.

Definition getProperty (subQueries : gmap string QueryNode) (k : string)
    : Property :=
  match subQueries !! k with
  | Some child => OwnNode child
  | None =>
      if bool_decide (k ∈ inheritedNames) then InheritedMember
      else NoProperty
  end.

(** The builders once more, with the property read as JavaScript does
    it. A call returns [Some] text, or [None] when it throws. *)
Module Exec.

(** [a.map(f)] when [f] may throw: the first throw ends the call. *)
Fixpoint sequence (l : list (option string)) : option (list string) :=
  match l with
  | [] => Some []
  | x :: l' => s ← x; ss ← sequence l'; Some (s :: ss)
  end.

Section Builders.

(** The recursive reference to [buildSQL]. *)
Variable self : QueryNode -> nat -> option string.

(** The text returned around [subSQL]. *)
Definition wrap (depth : nat) (subSQL : string) : string :=
  let indented := reindent (JS.repeat "  " (depth + 2)) subSQL in
  "(" +:+ JS.nl +:+ JS.repeat "  " (depth + 2) +:+ indented +:+ JS.nl
    +:+ JS.repeat "  " (depth + 1) +:+ ")".

(** For an inherited member [m] the test [subQueries[cond.subQueryId]] is
    truthy; [buildSQL(m, depth + 2)] finds no [operation] in [m], leaves its
    [switch] without a [return] and gives [undefined]; [subSQL.split] then
    throws a [TypeError]. *)
Definition resolveConditionValue (cond : Condition)
    (subQueries : gmap string QueryNode) (depth : nat) : option string :=
  let literal := "'" +:+ cond_value cond +:+ "'" in
  match cond_subQueryId cond with
  | Some k =>
      if JS.truthy k then
        match getProperty subQueries k with
        | OwnNode child =>
            subSQL ← self child (depth + 2); Some (wrap depth subSQL)
        | InheritedMember => None
        | NoProperty => Some literal
        end
      else Some literal
  | None => Some literal
  end.

Definition conditionClause (c : Condition)
    (subQueries : gmap string QueryNode) (depth : nat) : option string :=
  if isExistsOp c then
    val ← resolveConditionValue c subQueries depth;
    Some (operator_text (cond_operator c) +:+ " " +:+ val)
  else if isNullOp c then
    Some (col c +:+ " " +:+ operator_text (cond_operator c))
  else if isSubQuery c then
    val ← resolveConditionValue c subQueries depth;
    Some (col c +:+ " " +:+ operator_text (cond_operator c) +:+ " " +:+ val)
  else
    Some (col c +:+ " " +:+ operator_text (cond_operator c) +:+ " '"
            +:+ cond_value c +:+ "'").

Definition conditionPart (subQueries : gmap string QueryNode) (depth : nat)
    (i : nat) (c : Condition) : option string :=
  clause ← conditionClause c subQueries depth;
  Some (if decide (i = 0) then clause
        else logic_text (cond_logic c) +:+ " " +:+ clause).

Definition buildWhereClause (conditions : list Condition)
    (subQueries : gmap string QueryNode) (depth : nat)
    (indent inner : string) : option string :=
  match conditions with
  | [] => Some ""
  | _ =>
      parts ← sequence (imap (conditionPart subQueries depth) conditions);
      Some (JS.nl +:+ indent +:+ "WHERE "
              +:+ JS.join (JS.nl +:+ inner) parts)
  end.

Definition buildSelect (node : QueryNode) (depth : nat)
    (indent inner : string) : option string :=
  if negb (JS.truthy (table node)) then
    Some (indent +:+ "-- Please fill in the table name")
  else
    let cols := JS.or_else (JS.trim (selectColumns node)) "*" in
    let sql := "SELECT " +:+ cols +:+ JS.nl +:+ indent +:+ "FROM "
                 +:+ table node in
    let sql := fold_left (appendJoin indent) (joins node) sql in
    where_ ← buildWhereClause (conditions node) (subQueries node) depth
               indent inner;
    let sql := sql +:+ where_ in
    let sql :=
      match orderBy node with
      | [] => sql
      | _ =>
          let cols := orderByColumns (orderBy node) in
          if JS.truthy cols
          then sql +:+ JS.nl +:+ indent +:+ "ORDER BY " +:+ cols
          else sql
      end in
    let sql :=
      if JS.truthy (limit node)
      then sql +:+ JS.nl +:+ indent +:+ "LIMIT " +:+ limit node
      else sql in
    Some (sql +:+ ";").

Definition buildUpdate (node : QueryNode) (depth : nat)
    (indent inner : string) : option string :=
  if negb (JS.truthy (table node)) then
    Some (indent +:+ "-- Please fill in the table name")
  else
    let filled := filledPairs (pairs node) in
    match filled with
    | [] => Some (indent +:+ "-- Add at least one SET column")
    | _ =>
        let sets :=
          JS.join ("," +:+ JS.nl)
            (map (fun p => inner +:+ pair_column p +:+ " = '"
                             +:+ pair_value p +:+ "'") filled) in
        let sql := "UPDATE " +:+ table node +:+ JS.nl +:+ indent +:+ "SET"
                     +:+ JS.nl +:+ sets in
        where_ ← buildWhereClause (conditions node) (subQueries node) depth
                   indent inner;
        Some ((sql +:+ where_) +:+ ";")
    end.

Definition buildDelete (node : QueryNode) (depth : nat)
    (indent inner : string) : option string :=
  if negb (JS.truthy (table node)) then
    Some (indent +:+ "-- Please fill in the table name")
  else
    let sql := "DELETE FROM " +:+ table node in
    where_ ← buildWhereClause (conditions node) (subQueries node) depth
               indent inner;
    Some ((sql +:+ where_) +:+ ";").

Definition buildSQL_body (node : QueryNode) (depth : nat) : option string :=
  let indent := JS.repeat "  " depth in
  let inner := JS.repeat "  " (depth + 1) in
  match operation node with
  | SELECT => buildSelect node depth indent inner
  | INSERT => Some (buildInsert node)
  | UPDATE => buildUpdate node depth indent inner
  | DELETE => buildDelete node depth indent inner
  end.

End Builders.

Fixpoint buildSQL_fuel (seed : QueryNode -> nat -> option string)
    (fuel : nat) : QueryNode -> nat -> option string :=
  match fuel with
  | 0 => seed
  | S fuel' => buildSQL_body (buildSQL_fuel seed fuel')
  end.

(** [buildSQL(node, depth)] as it runs: [Some] text, or [None] for a
    thrown [TypeError]. *)
Definition buildSQL (node : QueryNode) (depth : nat) : option string :=
  buildSQL_fuel (fun _ _ => None) (height node) node depth.

End Exec.

(** No subQueryId in the node or below it is the name of an inherited
    member: so it is for every id that [genId] draws. *)
Inductive conventional : QueryNode -> Prop :=
  | conventional_node (node : QueryNode) :
      (forall c k, c ∈ conditions node -> cond_subQueryId c = Some k ->
         k ∉ inheritedNames) ->
      (forall k child, subQueries node !! k = Some child ->
         conventional child) ->
      conventional node.

(** [run] returns what [self] does on the children of a map, called at
    [depth + 2]. *)
Definition returns_at (self : QueryNode -> nat -> string)
    (run : QueryNode -> nat -> option string)
    (subs : gmap string QueryNode) (depth : nat) : Prop :=
  forall k child, subs !! k = Some child ->
    run child (depth + 2) = Some (self child (depth + 2)).

(** A SELECT whose only condition names [constructor] as its subquery,
    with no subquery stored. *)
Module InheritedName.

Definition cond : Condition :=
  {| cond_id := "c1"; cond_column := "id"; cond_operator := OpIn;
     cond_value := "1"; cond_logic := AND;
     cond_subQueryId := Some "constructor" |}.

Definition node : QueryNode :=
  {| node_id := "root"; operation := SELECT; table := "t";
     selectColumns := "*"; pairs := []; conditions := [cond]; joins := [];
     orderBy := []; limit := ""; subQueries := ∅ |}.

End InheritedName.

(** ** Strings: concatenation *)

Section StringFacts.

Lemma append_nil_r (s : string) : s +:+ "" = s.
Proof. induction s as [|a s IH]; simpl; [done | by rewrite IH]. Qed.

Lemma append_assoc (s t u : string) : (s +:+ t) +:+ u = s +:+ t +:+ u.
Proof. induction s as [|a s IH]; simpl; [done | by rewrite IH]. Qed.

Lemma append_cons (a : ascii) (s t : string) :
  String a s +:+ t = String a (s +:+ t).
Proof. done. Qed.

Lemma truthy_true (s : string) : JS.truthy s = true <-> s <> "".
Proof. destruct s; simpl; split; congruence. Qed.

End StringFacts.

(** ** Termination: the recursion follows the subquery maps *)

Section Termination.

Lemma height_unfold (node : QueryNode) :
  height node =
  S (map_fold (fun _ h acc => Nat.max h acc) 0 (height <$> subQueries node)).
Proof. by destruct node. Qed.

Lemma height_child (node child : QueryNode) (k : string) :
  subQueries node !! k = Some child -> height child < height node.
Proof.
  intros Hk. rewrite (height_unfold node).
  rewrite (map_fold_delete_L _ _ k (height child)).
  - lia.
  - intros; lia.
  - by rewrite lookup_fmap, Hk.
Qed.

Lemma resolveConditionValue_local f g cond subs depth :
  agree_below subs depth f g ->
  resolveConditionValue f cond subs depth
  = resolveConditionValue g cond subs depth.
Proof.
  intros Hfg. unfold resolveConditionValue, attachedSubQuery.
  destruct (cond_subQueryId cond) as [k|]; [|done].
  destruct (JS.truthy k); [|done].
  destruct (subs !! k) as [child|] eqn:Hk; [|done].
  by rewrite (Hfg k child Hk).
Qed.

Lemma conditionClause_local f g c subs depth :
  agree_below subs depth f g ->
  conditionClause f c subs depth = conditionClause g c subs depth.
Proof.
  intros Hfg. unfold conditionClause.
  by rewrite (resolveConditionValue_local f g c subs depth Hfg).
Qed.

Lemma buildWhereClause_local f g conds subs depth indent inner :
  agree_below subs depth f g ->
  buildWhereClause f conds subs depth indent inner
  = buildWhereClause g conds subs depth indent inner.
Proof.
  intros Hfg. unfold buildWhereClause.
  destruct conds as [|c conds]; [done|].
  do 4 f_equal. apply imap_ext. intros i x _. unfold conditionPart.
  by rewrite (conditionClause_local f g x subs depth Hfg).
Qed.

Lemma buildSQL_body_local f g node depth :
  agree_below (subQueries node) depth f g ->
  buildSQL_body f node depth = buildSQL_body g node depth.
Proof.
  intros Hfg. unfold buildSQL_body, buildSelect, buildUpdate, buildDelete.
  destruct (operation node); [|done| |];
    by rewrite (buildWhereClause_local f g _ _ _ _ _ Hfg).
Qed.

(** Past the height of the node, more fuel or another seed changes
    nothing. *)
Lemma buildSQL_fuel_stable seed1 seed2 fuel1 :
  forall fuel2 node depth,
    height node <= fuel1 -> height node <= fuel2 ->
    buildSQL_fuel seed1 fuel1 node depth
    = buildSQL_fuel seed2 fuel2 node depth.
Proof.
  induction fuel1 as [|fuel1 IH]; intros fuel2 node depth H1 H2.
  { rewrite height_unfold in H1. lia. }
  destruct fuel2 as [|fuel2]; [rewrite height_unfold in H2; lia|].
  simpl. apply buildSQL_body_local. intros k child Hk.
  pose proof (height_child node child k Hk).
  apply IH; lia.
Qed.

(** [buildSQL] satisfies the recursive equation of the source. *)
Lemma buildSQL_unfold (node : QueryNode) (depth : nat) :
  buildSQL node depth = buildSQL_body buildSQL node depth.
Proof.
  unfold buildSQL at 1.
  destruct (height node) as [|h] eqn:Hh.
  { rewrite height_unfold in Hh. lia. }
  simpl. apply buildSQL_body_local. intros k child Hk.
  pose proof (height_child node child k Hk).
  unfold buildSQL. apply buildSQL_fuel_stable; lia.
Qed.

(** Induction on the nesting of a node. *)
Lemma QueryNode_nested_ind (P : QueryNode -> Prop) :
  (forall node,
      (forall k child, subQueries node !! k = Some child -> P child) ->
      P node) ->
  forall node, P node.
Proof.
  intros Hstep node.
  remember (height node) as h eqn:Hh.
  revert node Hh. induction h as [h IH] using lt_wf_ind.
  intros node ->. apply Hstep. intros k child Hk.
  apply (IH (height child)); [by eapply height_child | done].
Qed.

End Termination.

(** ** Lines and their leading white space *)

Section Indentation.

Lemma strip_app bol s t :
  strip bol (s +:+ t) = strip bol s +:+ strip (at_start bol s) t.
Proof.
  revert bol. induction s as [|c s IH]; intros bol; simpl; [done|].
  destruct (Ascii.eqb c JS.LF); [by rewrite IH|].
  destruct (bol && JS.is_white c); by rewrite IH.
Qed.

Lemma at_start_app bol s t :
  at_start bol (s +:+ t) = at_start (at_start bol s) t.
Proof.
  revert bol. induction s as [|c s IH]; intros bol; simpl; [done|].
  destruct (Ascii.eqb c JS.LF); [by rewrite IH|].
  destruct (bol && JS.is_white c); by rewrite IH.
Qed.

Lemma sim_refl bol s : sim bol s s.
Proof. by split. Qed.

Lemma sim_sym bol s t : sim bol s t -> sim bol t s.
Proof. intros [? ?]. by split. Qed.

Lemma sim_trans bol s t u : sim bol s t -> sim bol t u -> sim bol s u.
Proof. intros [? ?] [? ?]. split; congruence. Qed.

Lemma sim_app bol s1 t1 s2 t2 :
  sim bol s1 t1 -> sim (at_start bol s1) s2 t2 ->
  sim bol (s1 +:+ s2) (t1 +:+ t2).
Proof.
  intros [Hs Ha] [Hs2 Ha2]. split.
  - rewrite !strip_app, Hs, <- Ha. by rewrite Hs2.
  - rewrite !at_start_app, <- Ha. done.
Qed.

Lemma sim_app_same bol x s t :
  sim (at_start bol x) s t -> sim bol (x +:+ s) (x +:+ t).
Proof. intros H. apply sim_app; [apply sim_refl | done]. Qed.

Lemma strip_pad k s : strip true (JS.repeat "  " k +:+ s) = strip true s.
Proof. induction k as [|k IH]; simpl; done. Qed.

Lemma at_start_pad k s :
  at_start true (JS.repeat "  " k +:+ s) = at_start true s.
Proof. induction k as [|k IH]; simpl; done. Qed.

Lemma sim_pad k1 k2 s t :
  sim true s t ->
  sim true (JS.repeat "  " k1 +:+ s) (JS.repeat "  " k2 +:+ t).
Proof.
  intros [Hs Ha]. split.
  - by rewrite !strip_pad.
  - by rewrite !at_start_pad.
Qed.

Lemma sim_nl bol s t : sim true s t -> sim bol (JS.nl +:+ s) (JS.nl +:+ t).
Proof. intros [Hs Ha]. split; simpl; congruence. Qed.

Lemma sim_nl_pad bol k1 k2 s t :
  sim true s t ->
  sim bol (JS.nl +:+ JS.repeat "  " k1 +:+ s)
          (JS.nl +:+ JS.repeat "  " k2 +:+ t).
Proof. intros H. by apply sim_nl, sim_pad. Qed.

(** *** [split] and [join] *)

Lemma split_nonempty c s : JS.split c s <> [].
Proof.
  induction s as [|a s IH]; simpl; [done|].
  destruct (Ascii.eqb a c); [done|].
  by destruct (JS.split c s).
Qed.

Lemma join_split s : JS.join JS.nl (JS.split JS.LF s) = s.
Proof.
  induction s as [|a s IH]; simpl; [done|].
  destruct (Ascii.eqb a JS.LF) eqn:Ha.
  - apply Ascii.eqb_eq in Ha as ->.
    pose proof (split_nonempty JS.LF s).
    destruct (JS.split JS.LF s) as [|l ls]; [done|].
    change (JS.join JS.nl ("" :: l :: ls))
      with (String JS.LF (JS.join JS.nl (l :: ls))).
    by rewrite IH.
  - pose proof (split_nonempty JS.LF s).
    destruct (JS.split JS.LF s) as [|l ls]; [done|].
    rewrite <- IH. by destruct ls.
Qed.

Lemma join_cons_app sep p x xs :
  JS.join sep ((p +:+ x) :: xs) = p +:+ JS.join sep (x :: xs).
Proof. destruct xs; simpl; [done|]. by rewrite append_assoc. Qed.

(** Stripping the lines one by one, as [split] and [trimStart] do, is
    [strip] on the whole text. *)
Lemma split_strip s :
  JS.split JS.LF (strip true s) = map JS.trimStart (JS.split JS.LF s)
  /\ JS.split JS.LF (strip false s)
     = match JS.split JS.LF s with
       | l :: ls => l :: map JS.trimStart ls
       | [] => []
       end.
Proof.
  induction s as [|a s [IHt IHf]]; simpl; [done|].
  pose proof (split_nonempty JS.LF s) as Hne.
  destruct (Ascii.eqb a JS.LF) eqn:Ha.
  - simpl. rewrite Ha, IHt. done.
  - destruct (JS.split JS.LF s) as [|l ls] eqn:Hs; [done|].
    destruct (JS.is_white a) eqn:Hw; simpl.
    + rewrite IHt, Hw, Ha, IHf. done.
    + rewrite Ha, IHf, Hw. done.
Qed.

(** *** Re-indentation leaves the stripped text alone *)

Lemma sim_indent_tail k ls : forall bol l,
  sim bol (JS.join JS.nl (l :: map (String.append (JS.repeat "  " k)) ls))
          (JS.join JS.nl (l :: ls)).
Proof.
  induction ls as [|l' ls IH]; intros bol l; [apply sim_refl|].
  change (sim bol
    (l +:+ JS.nl +:+
       JS.join JS.nl ((JS.repeat "  " k +:+ l')
                        :: map (String.append (JS.repeat "  " k)) ls))
    (l +:+ JS.nl +:+ JS.join JS.nl (l' :: ls))).
  apply sim_app_same, sim_nl. rewrite join_cons_app.
  eapply sim_trans; [|apply (IH true l')].
  split; [apply strip_pad | apply at_start_pad].
Qed.

Lemma reindent_lines pad subSQL :
  exists l ls, JS.split JS.LF subSQL = l :: ls
    /\ reindent pad subSQL = JS.join JS.nl (l :: map (String.append pad) ls).
Proof.
  pose proof (split_nonempty JS.LF subSQL) as Hne. unfold reindent.
  destruct (JS.split JS.LF subSQL) as [|l ls]; [done|].
  exists l, ls. split; [done|]. rewrite imap_cons.
  replace (imap _ ls) with (map (String.append pad) ls); [done|].
  rewrite <- (imap_const (String.append pad)). by apply imap_ext.
Qed.

Lemma sim_reindent bol k subSQL :
  sim bol (reindent (JS.repeat "  " k) subSQL) subSQL.
Proof.
  destruct (reindent_lines (JS.repeat "  " k) subSQL) as (l & ls & Hs & ->).
  rewrite <- (join_split subSQL), Hs. apply sim_indent_tail.
Qed.

End Indentation.

(** ** The depth moves indentation only *)

Section DepthIndentation.

Variable self : QueryNode -> nat -> string.

Lemma sim_join sep1 sep2 l1 l2 :
  sim_any sep1 sep2 -> Forall2 sim_any l1 l2 ->
  sim_any (JS.join sep1 l1) (JS.join sep2 l2).
Proof.
  intros Hsep Hl. induction Hl as [|x y l1 l2 Hxy Hl IH]; intros bol.
  { apply sim_refl. }
  destruct Hl as [|x' y' l1 l2 Hxy' Hl].
  { apply Hxy. }
  change (sim bol (x +:+ sep1 +:+ JS.join sep1 (x' :: l1))
                  (y +:+ sep2 +:+ JS.join sep2 (y' :: l2))).
  apply sim_app; [apply Hxy|]. apply sim_app; [apply Hsep|]. apply IH.
Qed.

Lemma Forall2_imap {A} (f g : nat -> A -> string) (l : list A) :
  (forall i x, sim_any (f i x) (g i x)) ->
  Forall2 sim_any (imap f l) (imap g l).
Proof.
  revert f g. induction l as [|x l IH]; intros f g Hfg; [constructor|].
  rewrite !imap_cons. constructor; [apply Hfg|].
  apply IH. intros i y. apply Hfg.
Qed.

Lemma attachedSubQuery_lookup cond subs child :
  attachedSubQuery cond subs = Some child ->
  exists k, cond_subQueryId cond = Some k /\ JS.truthy k = true
            /\ subs !! k = Some child.
Proof.
  unfold attachedSubQuery. destruct (cond_subQueryId cond) as [k|]; [|done].
  destruct (JS.truthy k) eqn:Hk; [|done]. intros H. by exists k.
Qed.

Lemma sim_resolveConditionValue cond subs d1 d2 :
  sim_below self subs ->
  sim_any (resolveConditionValue self cond subs d1)
          (resolveConditionValue self cond subs d2).
Proof.
  intros Hsub bol. unfold resolveConditionValue.
  destruct (attachedSubQuery cond subs) as [child|] eqn:Hc; [|apply sim_refl].
  apply attachedSubQuery_lookup in Hc as (k & _ & _ & Hk).
  apply sim_app_same, sim_nl_pad. apply sim_app.
  - eapply sim_trans; [apply sim_reindent|].
    eapply sim_trans; [apply (Hsub k child Hk)|].
    apply sim_sym, sim_reindent.
  - apply sim_nl_pad, sim_refl.
Qed.

Lemma sim_conditionClause c subs d1 d2 :
  sim_below self subs ->
  sim_any (conditionClause self c subs d1) (conditionClause self c subs d2).
Proof.
  intros Hsub bol. unfold conditionClause.
  destruct (isExistsOp c).
  { do 2 apply sim_app_same. by apply sim_resolveConditionValue. }
  destruct (isNullOp c); [apply sim_refl|].
  destruct (isSubQuery c); [|apply sim_refl].
  do 4 apply sim_app_same. by apply sim_resolveConditionValue.
Qed.

Lemma sim_conditionPart subs d1 d2 i c :
  sim_below self subs ->
  sim_any (conditionPart self subs d1 i c) (conditionPart self subs d2 i c).
Proof.
  intros Hsub bol. unfold conditionPart.
  destruct (decide (i = 0)); [by apply sim_conditionClause|].
  do 2 apply sim_app_same. by apply sim_conditionClause.
Qed.

Lemma sim_buildWhereClause conds subs d1 d2 :
  sim_below self subs ->
  sim_any
    (buildWhereClause self conds subs d1
       (JS.repeat "  " d1) (JS.repeat "  " (d1 + 1)))
    (buildWhereClause self conds subs d2
       (JS.repeat "  " d2) (JS.repeat "  " (d2 + 1))).
Proof.
  intros Hsub bol. unfold buildWhereClause.
  destruct conds as [|c conds]; [apply sim_refl|].
  apply sim_nl_pad, sim_app_same. apply sim_join.
  - intros b.
    rewrite <- (append_nil_r (_ +:+ JS.repeat "  " (d1 + 1))), append_assoc.
    rewrite <- (append_nil_r (_ +:+ JS.repeat "  " (d2 + 1))), append_assoc.
    apply sim_nl_pad, sim_refl.
  - apply Forall2_imap. intros i x. by apply sim_conditionPart.
Qed.

Lemma sim_appendJoin d1 d2 joins : forall bol sql1 sql2,
  sim bol sql1 sql2 ->
  sim bol (fold_left (appendJoin (JS.repeat "  " d1)) joins sql1)
          (fold_left (appendJoin (JS.repeat "  " d2)) joins sql2).
Proof.
  induction joins as [|j joins IH]; intros bol sql1 sql2 H; [done|].
  simpl. apply IH. unfold appendJoin.
  destruct (JS.truthy (join_table j) && JS.truthy (join_onLeft j)
            && JS.truthy (join_onRight j)); [|done].
  apply sim_app; [done|]. apply sim_nl_pad, sim_refl.
Qed.

Lemma sim_sets d1 d2 (filled : list ColumnValuePair) :
  sim true
    (JS.join ("," +:+ JS.nl)
       (map (fun p => JS.repeat "  " d1 +:+ pair_column p +:+ " = '"
                        +:+ pair_value p +:+ "'") filled))
    (JS.join ("," +:+ JS.nl)
       (map (fun p => JS.repeat "  " d2 +:+ pair_column p +:+ " = '"
                        +:+ pair_value p +:+ "'") filled)).
Proof.
  induction filled as [|p filled IH]; [apply sim_refl|].
  destruct filled as [|q filled].
  { simpl. apply sim_pad, sim_refl. }
  change (sim true
    ((JS.repeat "  " d1 +:+ pair_column p +:+ " = '" +:+ pair_value p +:+ "'")
       +:+ ("," +:+ JS.nl) +:+ JS.join ("," +:+ JS.nl)
         (map (fun p => JS.repeat "  " d1 +:+ pair_column p +:+ " = '"
                          +:+ pair_value p +:+ "'") (q :: filled)))
    ((JS.repeat "  " d2 +:+ pair_column p +:+ " = '" +:+ pair_value p +:+ "'")
       +:+ ("," +:+ JS.nl) +:+ JS.join ("," +:+ JS.nl)
         (map (fun p => JS.repeat "  " d2 +:+ pair_column p +:+ " = '"
                          +:+ pair_value p +:+ "'") (q :: filled)))).
  apply sim_app; [apply sim_pad, sim_refl|].
  rewrite !append_assoc. apply sim_app_same, sim_nl, IH.
Qed.

Lemma sim_buildSQL_body node d1 d2 :
  sim_below self (subQueries node) ->
  sim true (buildSQL_body self node d1) (buildSQL_body self node d2).
Proof.
  intros Hsub.
  pose proof (sim_buildWhereClause (conditions node) _ d1 d2 Hsub) as Hw.
  assert (forall text,
    sim true (JS.repeat "  " d1 +:+ text) (JS.repeat "  " d2 +:+ text))
    as Hplace.
  { intros text. apply sim_pad, sim_refl. }
  unfold buildSQL_body. destruct (operation node).
  - unfold buildSelect. destruct (negb (JS.truthy (table node))); [done|].
    cbv zeta. apply sim_app; [|apply sim_refl].
    set (cols := JS.or_else (JS.trim (selectColumns node)) "*").
    assert (forall d, "SELECT " +:+ cols +:+ JS.nl +:+ JS.repeat "  " d
                        +:+ "FROM " +:+ table node
                      = ("SELECT " +:+ cols) +:+ JS.nl +:+ JS.repeat "  " d
                        +:+ "FROM " +:+ table node) as Hassoc.
    { intros d. by rewrite append_assoc. }
    rewrite !Hassoc.
    set (sql1 := fold_left _ _ (_ +:+ _ +:+ JS.repeat "  " d1 +:+ _)).
    set (sql2 := fold_left _ _ (_ +:+ _ +:+ JS.repeat "  " d2 +:+ _)).
    assert (sim true sql1 sql2) as H1.
    { apply sim_appendJoin, sim_app_same, sim_nl_pad, sim_refl. }
    assert (sim true (sql1 +:+ buildWhereClause self (conditions node)
                        (subQueries node) d1 (JS.repeat "  " d1)
                        (JS.repeat "  " (d1 + 1)))
                     (sql2 +:+ buildWhereClause self (conditions node)
                        (subQueries node) d2 (JS.repeat "  " d2)
                        (JS.repeat "  " (d2 + 1)))) as H2.
    { apply sim_app; [done | apply Hw]. }
    set (order1 := match orderBy node with [] => _ | _ => _ end).
    set (order2 := match orderBy node with [] => _ | _ => _ end).
    assert (sim true order1 order2) as H3.
    { subst order1 order2. destruct (orderBy node); [done|].
      destruct (JS.truthy _); [|done].
      apply sim_app; [done | apply sim_nl_pad, sim_refl]. }
    destruct (JS.truthy (limit node)); [|done].
    apply sim_app; [done | apply sim_nl_pad, sim_refl].
  - apply sim_refl.
  - unfold buildUpdate. destruct (negb (JS.truthy (table node))); [done|].
    destruct (filledPairs (pairs node)) as [|p filled] eqn:Hf; [done|].
    cbv zeta. apply sim_app; [|apply sim_refl].
    apply sim_app; [|apply Hw].
    rewrite <- !(append_assoc "UPDATE ").
    apply sim_app_same, sim_nl_pad, sim_app_same, sim_nl, sim_sets.
  - unfold buildDelete. destruct (negb (JS.truthy (table node))); [done|].
    cbv zeta. apply sim_app; [|apply sim_refl].
    apply sim_app_same, Hw.
Qed.

End DepthIndentation.

Lemma sim_buildSQL (node : QueryNode) :
  forall d1 d2, sim true (buildSQL node d1) (buildSQL node d2).
Proof.
  induction node as [node IH] using QueryNode_nested_ind. intros d1 d2.
  rewrite !buildSQL_unfold. apply sim_buildSQL_body. exact IH.
Qed.

(** ** Where a keyword can occur in a text *)

Section Keywords.

Lemma startsWith_break kw x c v :
  mentions c kw = false ->
  JS.startsWith kw (x +:+ String c v) = JS.startsWith kw x.
Proof.
  revert x. induction kw as [|a kw IH]; intros x Hc; [by destruct x|].
  simpl in Hc. apply orb_false_iff in Hc as [Hca Hc].
  destruct x as [|b x]; simpl.
  - rewrite Ascii.eqb_sym, Hca. done.
  - by rewrite IH.
Qed.

(** An occurrence of [kw] cannot run over a character foreign to [kw]. *)
Lemma includes_break kw u c v :
  mentions c kw = false ->
  JS.includes kw (u +:+ String c v) = JS.includes kw u || JS.includes kw v.
Proof.
  intros Hc. induction u as [|b u IH].
  - simpl String.append. cbn [JS.includes].
    rewrite <- (startsWith_break kw "" c v Hc). simpl String.append.
    by rewrite orb_false_r.
  - change (String b u +:+ String c v) with (String b (u +:+ String c v)).
    cbn [JS.includes]. rewrite IH.
    rewrite <- (startsWith_break kw (String b u) c v Hc).
    by rewrite orb_assoc.
Qed.

Lemma startsWith_snoc kw x c :
  ends_in c kw = false ->
  JS.startsWith kw (x +:+ String c "") = JS.startsWith kw x.
Proof.
  revert x. induction kw as [|a kw IH]; intros x Hc; [by destruct x|].
  destruct x as [|b x]; simpl.
  - destruct kw; [|by rewrite andb_false_r].
    simpl in Hc. by rewrite Hc.
  - rewrite IH; [done|]. by destruct kw.
Qed.

(** Nor can it end on a character that is not its last. *)
Lemma includes_snoc kw u c :
  ends_in c kw = false -> JS.startsWith kw "" = false ->
  JS.includes kw (u +:+ String c "") = JS.includes kw u.
Proof.
  intros Hc Hne. induction u as [|b u IH].
  - pose proof (startsWith_snoc kw "" c Hc) as H.
    simpl String.append in *. cbn [JS.includes]. by rewrite H, Hne.
  - change (String b u +:+ String c "") with (String b (u +:+ String c "")).
    cbn [JS.includes]. rewrite IH.
    by rewrite <- (startsWith_snoc kw (String b u) c Hc).
Qed.

Lemma includes_cons kw a s :
  JS.includes kw (String a s) = JS.startsWith kw (String a s) || JS.includes kw s.
Proof. done. Qed.

Lemma includes_tail kw a s :
  JS.includes kw (String a s) = false -> JS.includes kw s = false.
Proof. rewrite includes_cons. by intros [_ ?]%orb_false_iff. Qed.

Lemma startsWith_app kw u w :
  JS.startsWith kw u = true -> JS.startsWith kw (u +:+ w) = true.
Proof.
  revert u. induction kw as [|a kw IH]; intros u H; [done|].
  destruct u as [|b u]; [done|]. simpl in *.
  apply andb_true_iff in H as [-> H]. by rewrite IH.
Qed.

Lemma includes_app_l kw u w :
  JS.includes kw (u +:+ w) = false -> JS.includes kw u = false.
Proof.
  intros H. destruct (JS.includes kw u) eqn:Hu; [|done].
  rewrite <- H. clear H. symmetry. induction u as [|b u IH].
  - simpl in Hu. rewrite orb_false_r in Hu.
    destruct w; simpl; [by rewrite Hu|]. destruct kw; done.
  - change (String b u +:+ w) with (String b (u +:+ w)).
    rewrite includes_cons in *. apply orb_true_iff in Hu as [Hu|Hu].
    + pose proof (startsWith_app _ (String b u) w Hu) as H.
      rewrite append_cons in H. by rewrite H.
    + rewrite (IH Hu). by rewrite orb_true_r.
Qed.

Lemma includes_app_r kw u w :
  JS.includes kw (u +:+ w) = false -> JS.includes kw w = false.
Proof.
  induction u as [|b u IH]; [done|]. intros H. apply IH.
  by apply includes_tail in H.
Qed.

Lemma includes_skip kw c v :
  mentions c kw = false -> JS.includes kw (String c v) = JS.includes kw v.
Proof.
  intros Hc. pose proof (includes_break kw "" c v Hc) as H.
  simpl String.append in H. rewrite H. destruct kw; [by destruct v | done].
Qed.

Lemma includes_pad kw k s :
  mentions " " kw = false ->
  JS.includes kw (JS.repeat "  " k +:+ s) = JS.includes kw s.
Proof.
  intros Hc. induction k as [|k IH]; [done|].
  cbn [JS.repeat String.append]. rewrite !includes_skip by done. exact IH.
Qed.

Lemma trimStart_suffix s : exists w, s = w +:+ JS.trimStart s.
Proof.
  induction s as [|c s [w IH]]; [by exists ""|]. simpl.
  destruct (JS.is_white c); [|by exists ""].
  exists (String c w). simpl. by rewrite <- IH.
Qed.

Lemma trimEnd_prefix s : exists w, s = JS.trimEnd s +:+ w.
Proof.
  induction s as [|c s [w IH]]; [by exists ""|]. simpl.
  destruct (JS.trimEnd s) as [|a t].
  - destruct (JS.is_white c); [by eexists | by exists s].
  - exists w. simpl. by rewrite IH at 1.
Qed.

Lemma includes_trim kw s :
  JS.includes kw s = false -> JS.includes kw (JS.trim s) = false.
Proof.
  intros H. unfold JS.trim.
  destruct (trimStart_suffix s) as [w1 H1].
  destruct (trimEnd_prefix (JS.trimStart s)) as [w2 H2].
  rewrite H1 in H. apply includes_app_r in H. rewrite H2 in H.
  by apply includes_app_l in H.
Qed.

Lemma includes_not_first kw c v :
  begins_with c kw = false -> JS.includes kw (String c v) = JS.includes kw v.
Proof.
  intros Hc. rewrite includes_cons. destruct kw as [|a kw]; [done|].
  simpl in *. by rewrite Hc.
Qed.

Lemma includes_break2 kw u a c v :
  mentions c kw = false -> ends_in a kw = false ->
  JS.startsWith kw "" = false ->
  JS.includes kw (u +:+ String a (String c v))
  = JS.includes kw u || JS.includes kw v.
Proof.
  intros Hc Ha Hne.
  replace (u +:+ String a (String c v))
    with ((u +:+ String a "") +:+ String c v)
    by (by rewrite append_assoc).
  by rewrite includes_break, includes_snoc.
Qed.

Lemma includes_empty kw : JS.startsWith kw "" = false -> JS.includes kw "" = false.
Proof. intros H. simpl. by rewrite H. Qed.

(** A keyword is in [l.join(", ")] only when it is in a member of [l]. *)
Lemma includes_join_comma kw l :
  JS.startsWith kw "" = false -> mentions "," kw = false ->
  begins_with " " kw = false ->
  Forall (fun x => JS.includes kw x = false) l ->
  JS.includes kw (JS.join ", " l) = false.
Proof.
  intros Hne Hc Hs Hl. induction Hl as [|x l Hx Hl IH].
  { by apply includes_empty. }
  destruct l as [|y l]; [done|].
  change (JS.join ", " (x :: y :: l))
    with (x +:+ String "," (String " " (JS.join ", " (y :: l)))).
  by rewrite includes_break, includes_not_first, Hx, IH.
Qed.

(** The same for the [",\n"] that separates the SET assignments. *)
Lemma includes_join_comma_nl kw l :
  JS.startsWith kw "" = false -> mentions "," kw = false ->
  mentions JS.LF kw = false ->
  Forall (fun x => JS.includes kw x = false) l ->
  JS.includes kw (JS.join ("," +:+ JS.nl) l) = false.
Proof.
  intros Hne Hc Hs Hl. induction Hl as [|x l Hx Hl IH].
  { by apply includes_empty. }
  destruct l as [|y l]; [done|].
  change (JS.join ("," +:+ JS.nl) (x :: y :: l))
    with (x +:+ String "," (String JS.LF (JS.join ("," +:+ JS.nl) (y :: l)))).
  by rewrite includes_break, includes_skip, Hx, IH.
Qed.

End Keywords.

(** Skips the characters of a literal that cannot open the keyword. *)
Ltac skip_literal :=
  unfold JS.nl; cbn [String.append];
  repeat (rewrite includes_cons; simpl (JS.startsWith _ (String _ _));
          rewrite orb_false_l).

(** ** INSERT renders the table and the pairs only *)

Section Insert.

Lemma buildInsert_filled node :
  table node <> "" -> filledPairs (pairs node) <> [] ->
  buildInsert node = insertText node.
Proof.
  intros Ht Hf. unfold buildInsert, insertText.
  apply truthy_true in Ht. rewrite Ht. simpl negb. cbv iota.
  by destruct (filledPairs (pairs node)).
Qed.

Lemma insertText_keyword_free kw node :
  kw ∈ clauseKeywords ->
  JS.includes kw (table node) = false ->
  Forall (fun p => JS.includes kw (pair_column p) = false
                   /\ JS.includes kw (pair_value p) = false)
         (filledPairs (pairs node)) ->
  JS.includes kw (insertText node) = false.
Proof.
  intros Hkw Ht Hp. unfold insertText.
  assert (JS.includes kw
            (JS.join ", " (map pair_column (filledPairs (pairs node))))
          = false
          /\ JS.includes kw
               (JS.join ", " (map (fun p => "'" +:+ pair_value p +:+ "'")
                                  (filledPairs (pairs node))))
             = false) as [Hcols Hvals].
  { unfold clauseKeywords in Hkw. rewrite !elem_of_cons in Hkw.
    split; apply includes_join_comma;
      try (destruct Hkw as [->|[->|[->|[->|[]%elem_of_nil]]]]; reflexivity);
      apply Forall_map; eapply Forall_impl; try exact Hp;
      intros p [Hc Hv]; cbn beta; [done|].
    cbn [String.append]. rewrite includes_skip, includes_break, Hv;
      destruct Hkw as [->|[->|[->|[->|[]%elem_of_nil]]]]; reflexivity. }
  revert Hcols Hvals.
  generalize (JS.join ", " (map pair_column (filledPairs (pairs node)))).
  generalize (JS.join ", " (map (fun p => "'" +:+ pair_value p +:+ "'")
                                (filledPairs (pairs node)))).
  intros vals cols Hcols Hvals.
  unfold clauseKeywords in Hkw. rewrite !elem_of_cons in Hkw.
  destruct Hkw as [->|[->|[->|[->|[]%elem_of_nil]]]];
    skip_literal;
    rewrite includes_break2, Ht by reflexivity;
    rewrite orb_false_l;
    rewrite includes_break, Hcols by reflexivity;
    rewrite orb_false_l;
    skip_literal;
    rewrite includes_break, Hvals by reflexivity;
    reflexivity.
Qed.

End Insert.

(** ** No condition, no WHERE clause *)

Section WhereOmission.

Variable self : QueryNode -> nat -> string.

Lemma Forall_filter_weaken {A} (P : A -> Prop) `{forall x, Decision (P x)}
    (Q : A -> Prop) (l : list A) :
  Forall Q l -> Forall Q (filter P l).
Proof.
  rewrite !Forall_forall. intros Hl x [_ Hx]%list_elem_of_filter. by apply Hl.
Qed.

Lemma buildWhereClause_nil subs depth indent inner :
  buildWhereClause self [] subs depth indent inner = "".
Proof. done. Qed.

Lemma where_free_appendJoin depth joins : forall sql,
  JS.includes "WHERE" sql = false ->
  Forall (fun j => JS.includes "WHERE" (join_table j) = false
                   /\ JS.includes "WHERE" (join_onLeft j) = false
                   /\ JS.includes "WHERE" (join_onRight j) = false) joins ->
  JS.includes "WHERE"
    (fold_left (appendJoin (JS.repeat "  " depth)) joins sql) = false.
Proof.
  induction joins as [|j joins IH]; intros sql Hsql Hj; [done|].
  apply Forall_cons in Hj as [(Ht & Hl & Hr) Hj].
  simpl. apply IH; [|done]. unfold appendJoin.
  destruct (JS.truthy (join_table j) && JS.truthy (join_onLeft j)
            && JS.truthy (join_onRight j)); [|done].
  unfold JS.nl. cbn [String.append].
  rewrite includes_break, Hsql, includes_pad by reflexivity.
  rewrite orb_false_l.
  destruct (join_type j); cbn [join_type_text]; skip_literal;
    rewrite includes_break, Ht by reflexivity; rewrite orb_false_l;
    skip_literal;
    rewrite includes_break, Hl by reflexivity; rewrite orb_false_l;
    skip_literal; done.
Qed.

Lemma where_free_orderByColumns orderBy :
  Forall (fun o => JS.includes "WHERE" (order_column o) = false) orderBy ->
  JS.includes "WHERE" (orderByColumns orderBy) = false.
Proof.
  intros Ho. unfold orderByColumns.
  apply includes_join_comma; try reflexivity.
  apply Forall_map, Forall_filter_weaken.
  eapply Forall_impl; [exact Ho|]. intros o Hc. cbn beta.
  unfold JS.nl. cbn [String.append].
  rewrite includes_break, Hc by reflexivity.
  by destruct (order_direction o).
Qed.

Lemma where_free_sets depth (filled : list ColumnValuePair) :
  Forall (fun p => JS.includes "WHERE" (pair_column p) = false
                   /\ JS.includes "WHERE" (pair_value p) = false) filled ->
  JS.includes "WHERE"
    (JS.join ("," +:+ JS.nl)
       (map (fun p => JS.repeat "  " depth +:+ pair_column p +:+ " = '"
                        +:+ pair_value p +:+ "'") filled)) = false.
Proof.
  intros Hp. apply includes_join_comma_nl; try reflexivity.
  apply Forall_map. eapply Forall_impl; [exact Hp|].
  intros p [Hc Hv]. cbn beta. rewrite includes_pad by reflexivity.
  cbn [String.append]. rewrite includes_break, Hc by reflexivity.
  rewrite orb_false_l. skip_literal.
  by rewrite includes_break, Hv by reflexivity.
Qed.

Lemma where_free_placeholder depth text :
  JS.includes "WHERE" text = false ->
  JS.includes "WHERE" (JS.repeat "  " depth +:+ text) = false.
Proof. intros H. by rewrite includes_pad. Qed.

Lemma where_free_buildSQL_body node depth :
  conditions node = [] -> keyword_free "WHERE" node ->
  JS.includes "WHERE" (buildSQL_body self node depth) = false.
Proof.
  intros Hc (Ht & Hs & Hl & Hp & Hj & Ho).
  unfold buildSQL_body. destruct (operation node).
  - unfold buildSelect. destruct (negb (JS.truthy (table node))).
    { by apply where_free_placeholder. }
    cbv zeta. rewrite Hc, buildWhereClause_nil, append_nil_r.
    set (sql1 := fold_left _ _ _).
    assert (JS.includes "WHERE" sql1 = false) as H1.
    { apply where_free_appendJoin; [|done]. skip_literal.
      rewrite includes_break by reflexivity.
      rewrite includes_pad by reflexivity. skip_literal. rewrite Ht.
      rewrite orb_false_r. unfold JS.or_else.
      destruct (JS.truthy (JS.trim (selectColumns node)));
        [by apply includes_trim | done]. }
    set (sql2 := match orderBy node with [] => _ | _ => _ end).
    assert (JS.includes "WHERE" sql2 = false) as H2.
    { subst sql2. destruct (orderBy node) as [|o os] eqn:Hos; [done|].
      destruct (JS.truthy _); [|done].
      unfold JS.nl. cbn [String.append].
      rewrite includes_break, H1, includes_pad by reflexivity.
      skip_literal. by apply where_free_orderByColumns. }
    rewrite includes_break by reflexivity.
    destruct (JS.truthy (limit node)); [|by rewrite H2].
    unfold JS.nl. cbn [String.append].
    rewrite includes_break, H2, includes_pad by reflexivity.
    skip_literal. by rewrite Hl.
  - unfold buildInsert. destruct (negb (JS.truthy (table node))); [done|].
    destruct (filledPairs (pairs node)) as [|p filled] eqn:Hf; [done|].
    rewrite <- Hf.
    apply (insertText_keyword_free "WHERE" node); [set_solver | done |].
    by apply Forall_filter_weaken.
  - unfold buildUpdate. destruct (negb (JS.truthy (table node))).
    { by apply where_free_placeholder. }
    destruct (filledPairs (pairs node)) as [|p filled] eqn:Hf.
    { by apply where_free_placeholder. }
    cbv zeta. rewrite Hc, buildWhereClause_nil, append_nil_r.
    rewrite includes_break by reflexivity. rewrite orb_false_r.
    rewrite <- Hf. skip_literal.
    rewrite includes_break, Ht, includes_pad by reflexivity.
    skip_literal. apply where_free_sets. by apply Forall_filter_weaken.
  - unfold buildDelete. destruct (negb (JS.truthy (table node))).
    { by apply where_free_placeholder. }
    cbv zeta. rewrite Hc, buildWhereClause_nil, append_nil_r.
    rewrite includes_break by reflexivity. rewrite orb_false_r.
    skip_literal. done.
Qed.

End WhereOmission.

(** ** The compiler on the scenarios of the specification *)

Example scenario_A : buildSQL Scenario.A 0 = text ["SELECT *"; "FROM users;"].
Proof. vm_compute. reflexivity. Qed.

Example scenario_B depth :
  buildSQL (makeEmptyNode SELECT) depth
  = JS.repeat "  " depth +:+ "-- Please fill in the table name".
Proof. by rewrite buildSQL_unfold. Qed.

Example scenario_C :
  buildSQL Scenario.C 0 = text ["INSERT INTO users (name)"; "VALUES ('Bo');"].
Proof. vm_compute. reflexivity. Qed.

Example scenario_D :
  buildSQL Scenario.D 0 = text ["DELETE FROM users"; "WHERE id = '5';"].
Proof. vm_compute. reflexivity. Qed.

Example scenario_E :
  buildSQL Scenario.E 0
  = text [ "SELECT *";
           "FROM orders";
           "WHERE status IS NULL";
           "  OR customer_id IN (";
           "    SELECT id";
           "        FROM vip_customers;";
           "  );" ].
Proof. vm_compute. reflexivity. Qed.

(** ** Properties of the compiler *)

Lemma resolveConditionValue_attached cond subs depth k child :
  cond_subQueryId cond = Some k -> k <> "" -> subs !! k = Some child ->
  resolveConditionValue buildSQL cond subs depth = wrapSubQuery child depth.
Proof.
  intros Hid Hk Hsub. unfold resolveConditionValue, attachedSubQuery.
  apply truthy_true in Hk. by rewrite Hid, Hk, Hsub.
Qed.

Lemma resolveConditionValue_literal self cond subs depth :
  attachedSubQuery cond subs = None ->
  resolveConditionValue self cond subs depth = "'" +:+ cond_value cond +:+ "'".
Proof. intros H. unfold resolveConditionValue. by rewrite H. Qed.

(** C1, as the compiler has it. For every condition with operator IN whose
    subQueryId is set and is a key of the map, the clause is the column (or
    the word [column]), [ IN (], a line feed, the padding of depth+2, the
    text of the child compiled at depth+2 with every line after the first
    padded by depth+2 again, a line feed, the padding of depth+1 and [)].
    For Scenario E at depth 0 the output contains the lines
    [WHERE status IS NULL], [  OR customer_id IN (], [    SELECT id] and
    ends with the line [  );]. *)
Theorem C1_in_subquery_clause (c : Condition) (subs : gmap string QueryNode)
    (depth : nat) (k : string) (child : QueryNode) :
  cond_operator c = OpIn ->
  cond_subQueryId c = Some k -> k <> "" -> subs !! k = Some child ->
  conditionClause buildSQL c subs depth
  = col c +:+ " IN (" +:+ JS.nl +:+ JS.repeat "  " (depth + 2)
      +:+ reindent (JS.repeat "  " (depth + 2)) (buildSQL child (depth + 2))
      +:+ JS.nl +:+ JS.repeat "  " (depth + 1) +:+ ")"
  /\ JS.includes
       (text ["WHERE status IS NULL"; "  OR customer_id IN ("; "    SELECT id"; ""])
       (buildSQL Scenario.E 0) = true
  /\ JS.endsWith (text [""; "  );"]) (buildSQL Scenario.E 0) = true.
Proof.
  intros Hop Hid Hk Hsub. split; [|split; vm_compute; reflexivity].
  unfold conditionClause, isExistsOp, isNullOp, isSubQuery.
  rewrite Hop, Hid. apply truthy_true in Hk as Hk'. rewrite Hk'.
  rewrite (resolveConditionValue_attached c subs depth k child Hid Hk Hsub).
  unfold wrapSubQuery. cbn [operator_text String.append]. reflexivity.
Qed.

(** C1 at the second condition of Scenario E. *)
Lemma C1_in_subquery_clause_witness :
  conditionClause buildSQL
    {| cond_id := "c2"; cond_column := "customer_id"; cond_operator := OpIn;
       cond_value := ""; cond_logic := OR; cond_subQueryId := Some "sq1" |}
    (subQueries Scenario.E) 0
  = text [ "customer_id IN (";
           "    SELECT id";
           "        FROM vip_customers;";
           "  )" ].
Proof.
  destruct (C1_in_subquery_clause
    {| cond_id := "c2"; cond_column := "customer_id"; cond_operator := OpIn;
       cond_value := ""; cond_logic := OR; cond_subQueryId := Some "sq1" |}
    (subQueries Scenario.E) 0 "sq1" Scenario.vip) as [H _].
  - reflexivity.
  - reflexivity.
  - discriminate.
  - vm_compute. reflexivity.
  - rewrite H. vm_compute. reflexivity.
Defined.

(** C1 as it is written fails: at depth 0 the output for Scenario E does
    not contain the text
    [WHERE status IS NULL\nOR customer_id IN (\n  SELECT id\n  FROM vip_customers\n);]. *)
Lemma C1_scenario_E_text_absent :
  JS.includes
    (text [ "WHERE status IS NULL";
            "OR customer_id IN (";
            "  SELECT id";
            "  FROM vip_customers";
            ");" ])
    (buildSQL Scenario.E 0) = false.
Proof. vm_compute. reflexivity. Qed.

Section Runtime.

Lemma sequence_Some (l : list string) :
  Exec.sequence (map Some l) = Some l.
Proof. induction l as [|x l IH]; [done|]. simpl. by rewrite IH. Qed.

Lemma imap_Some {A} (f : nat -> A -> option string) (g : nat -> A -> string)
    (l : list A) :
  (forall i x, x ∈ l -> f i x = Some (g i x)) ->
  imap f l = map Some (imap g l).
Proof.
  revert f g. induction l as [|x l IH]; intros f g Hfg; [done|].
  rewrite !imap_cons. cbn [map]. f_equal.
  - apply Hfg. by left.
  - apply IH. intros i y Hy. apply Hfg. by right.
Qed.

Lemma getProperty_own subs k child :
  subs !! k = Some child -> getProperty subs k = OwnNode child.
Proof. intros H. unfold getProperty. by rewrite H. Qed.

Lemma getProperty_none subs k :
  subs !! k = None -> k ∉ inheritedNames -> getProperty subs k = NoProperty.
Proof.
  intros H Hk. unfold getProperty. rewrite H. by rewrite bool_decide_false.
Qed.

Lemma getProperty_inherited subs k :
  subs !! k = None -> k ∈ inheritedNames ->
  getProperty subs k = InheritedMember.
Proof.
  intros H Hk. unfold getProperty. rewrite H. by rewrite bool_decide_true.
Qed.

Variable self : QueryNode -> nat -> string.
Variable run : QueryNode -> nat -> option string.

Lemma Exec_resolveConditionValue c subs depth :
  returns_at self run subs depth ->
  (forall k, cond_subQueryId c = Some k -> k ∉ inheritedNames) ->
  Exec.resolveConditionValue run c subs depth
  = Some (resolveConditionValue self c subs depth).
Proof.
  intros Hrun Hk.
  unfold Exec.resolveConditionValue, resolveConditionValue, attachedSubQuery.
  destruct (cond_subQueryId c) as [k|]; [|done].
  destruct (JS.truthy k); [|done].
  destruct (subs !! k) as [child|] eqn:Hc.
  - rewrite (getProperty_own _ _ _ Hc), (Hrun k child Hc). done.
  - by rewrite (getProperty_none _ _ Hc (Hk k eq_refl)).
Qed.

Lemma Exec_conditionPart c subs depth i :
  returns_at self run subs depth ->
  (forall k, cond_subQueryId c = Some k -> k ∉ inheritedNames) ->
  Exec.conditionPart run subs depth i c
  = Some (conditionPart self subs depth i c).
Proof.
  intros Hrun Hk.
  unfold Exec.conditionPart, conditionPart, Exec.conditionClause,
    conditionClause.
  rewrite (Exec_resolveConditionValue c subs depth Hrun Hk).
  by destruct (isExistsOp c), (isNullOp c), (isSubQuery c).
Qed.

Lemma Exec_buildWhereClause conds subs depth indent inner :
  returns_at self run subs depth ->
  (forall c k, c ∈ conds -> cond_subQueryId c = Some k ->
     k ∉ inheritedNames) ->
  Exec.buildWhereClause run conds subs depth indent inner
  = Some (buildWhereClause self conds subs depth indent inner).
Proof.
  intros Hrun Hk. unfold Exec.buildWhereClause, buildWhereClause.
  destruct conds as [|c0 conds]; [done|].
  rewrite (imap_Some _ (conditionPart self subs depth)).
  - by rewrite sequence_Some.
  - intros i c Hc. apply Exec_conditionPart; [done|]. intros k. by apply Hk.
Qed.

Lemma Exec_buildSQL_body node depth :
  returns_at self run (subQueries node) depth ->
  (forall c k, c ∈ conditions node -> cond_subQueryId c = Some k ->
     k ∉ inheritedNames) ->
  Exec.buildSQL_body run node depth = Some (buildSQL_body self node depth).
Proof.
  intros Hrun Hk. unfold Exec.buildSQL_body, buildSQL_body.
  unfold Exec.buildSelect, buildSelect, Exec.buildUpdate, buildUpdate,
    Exec.buildDelete, buildDelete.
  rewrite (Exec_buildWhereClause _ _ _ _ _ Hrun Hk).
  destruct (operation node); [|done| |];
    destruct (negb (JS.truthy (table node))); try done.
  by destruct (filledPairs (pairs node)).
Qed.

End Runtime.

(** On a conventional node the compiler runs to the end and returns the
    text of [buildSQL], once the fuel covers the height of the node. *)
Lemma Exec_buildSQL_fuel_conventional seed fuel : forall node depth,
  height node <= fuel -> conventional node ->
  Exec.buildSQL_fuel seed fuel node depth = Some (buildSQL node depth).
Proof.
  induction fuel as [|fuel IH]; intros node depth Hh Hc.
  { rewrite height_unfold in Hh. lia. }
  destruct Hc as [node Hids Hsub]. simpl. rewrite buildSQL_unfold.
  apply Exec_buildSQL_body; [|done].
  intros k child Hk. pose proof (height_child node child k Hk).
  apply IH; [lia|]. by eapply Hsub.
Qed.

Lemma Exec_buildSQL_conventional (node : QueryNode) (depth : nat) :
  conventional node -> Exec.buildSQL node depth = Some (buildSQL node depth).
Proof. intros Hc. by apply Exec_buildSQL_fuel_conventional. Qed.

(** C2, against the code. The compiler does not return on every finite
    node: a condition that names [constructor] as its subquery, with no
    subquery stored, finds the inherited member behind
    [subQueries[cond.subQueryId]], descends into it although it is not a
    child of the map, and the call ends in a thrown [TypeError]: at
    once, whatever deeper calls would return. (On a conventional node the
    call does return: [Exec_buildSQL_conventional].) *)
Theorem C2_inherited_name_throws :
  height InheritedName.node = 1
  /\ subQueries InheritedName.node !! "constructor" = None
  /\ getProperty (subQueries InheritedName.node) "constructor"
     = InheritedMember
  /\ Exec.buildSQL InheritedName.node 0 = None
  /\ (forall seed fuel,
        Exec.buildSQL_fuel seed (S fuel) InheritedName.node 0 = None).
Proof.
  split; [vm_compute; reflexivity|].
  split; [reflexivity|].
  split; [vm_compute; reflexivity|].
  split; [vm_compute; reflexivity|].
  intros seed fuel. reflexivity.
Qed.

(** C3. A node whose table is empty compiles to the comment
    [-- Please fill in the table name] and nothing else, behind the
    padding of its depth for SELECT, UPDATE and DELETE and without padding
    for INSERT, whatever its other fields hold. *)
Theorem C3_empty_table_placeholder (node : QueryNode) (depth : nat) :
  table node = "" ->
  buildSQL node depth
  = match operation node with
    | INSERT => "-- Please fill in the table name"
    | _ => JS.repeat "  " depth +:+ "-- Please fill in the table name"
    end.
Proof.
  intros Ht. rewrite buildSQL_unfold.
  unfold buildSQL_body, buildSelect, buildInsert, buildUpdate, buildDelete.
  rewrite Ht. by destruct (operation node).
Qed.

Lemma C3_empty_table_placeholder_witness :
  table (makeEmptyNode UPDATE) = ""
  /\ buildSQL (makeEmptyNode UPDATE) 1 = "  -- Please fill in the table name".
Proof.
  split; [reflexivity|].
  exact (C3_empty_table_placeholder (makeEmptyNode UPDATE) 1 eq_refl).
Defined.



(** C5, as the compiler has it. With a table and no pair whose column is
    filled in, an UPDATE node compiles to [-- Add at least one SET column]
    behind the padding of its depth, and an INSERT node to
    [-- Add at least one column] without padding, at every depth. *)
Theorem C5_no_filled_pair_placeholder (node : QueryNode) (depth : nat) :
  table node <> "" ->
  Forall (fun p => pair_column p = "") (pairs node) ->
  (operation node = INSERT ->
     buildSQL node depth = "-- Add at least one column")
  /\ (operation node = UPDATE ->
        buildSQL node depth
        = JS.repeat "  " depth +:+ "-- Add at least one SET column").
Proof.
  intros Ht Hp. apply truthy_true in Ht.
  assert (filledPairs (pairs node) = []) as Hf.
  { unfold filledPairs. induction Hp as [|p l Hp Hl IH]; [done|].
    rewrite filter_cons_False; [exact IH | by rewrite Hp]. }
  split; intros Hop; rewrite buildSQL_unfold; unfold buildSQL_body;
    rewrite Hop; unfold buildInsert, buildUpdate; by rewrite Ht, Hf.
Qed.

Lemma C5_no_filled_pair_placeholder_witness :
  let node := {| node_id := "n"; operation := UPDATE; table := "users";
                 selectColumns := "*";
                 pairs := [ {| pair_id := "p"; pair_column := "";
                               pair_value := "x" |} ];
                 conditions := []; joins := []; orderBy := []; limit := "";
                 subQueries := ∅ |} in
  buildSQL node 1 = "  -- Add at least one SET column".
Proof.
  intros node.
  refine (proj2 (C5_no_filled_pair_placeholder node 1 _ _) eq_refl).
  - discriminate.
  - repeat constructor.
Defined.

(** C5 as it is written fails: an INSERT node below the root is not padded.
    At depth 1 the placeholder comes without the two spaces of that depth. *)
Lemma C5_insert_placeholder_not_indented :
  let node := {| node_id := "n"; operation := INSERT; table := "users";
                 selectColumns := "*"; pairs := []; conditions := [];
                 joins := []; orderBy := []; limit := "";
                 subQueries := ∅ |} in
  buildSQL node 1 = "-- Add at least one column"
  /\ buildSQL node 1 <> JS.repeat "  " 1 +:+ "-- Add at least one column".
Proof. split; [reflexivity | discriminate]. Qed.

(** C6, as the compiler has it. An INSERT node with a table and a filled
    pair compiles, at every depth, to [INSERT INTO <table> (<cols>)], a line
    feed and [VALUES (<vals>);], built from the table and the filled pairs
    alone: its conditions, joins, orderBy, limit and subqueries add nothing.
    None of [WHERE], [JOIN], [ORDER BY], [LIMIT] is in the output unless it
    is in the table name or in the column or value of a filled pair. *)
Theorem C6_insert_ignores_clauses (node : QueryNode) (depth : nat) :
  operation node = INSERT ->
  table node <> "" ->
  filledPairs (pairs node) <> [] ->
  buildSQL node depth = insertText node
  /\ (forall kw, kw ∈ clauseKeywords ->
        JS.includes kw (table node) = false ->
        Forall (fun p => JS.includes kw (pair_column p) = false
                         /\ JS.includes kw (pair_value p) = false)
               (filledPairs (pairs node)) ->
        JS.includes kw (buildSQL node depth) = false).
Proof.
  intros Hop Ht Hf.
  assert (buildSQL node depth = insertText node) as Heq.
  { rewrite buildSQL_unfold. unfold buildSQL_body. rewrite Hop.
    by apply buildInsert_filled. }
  split; [exact Heq|]. intros kw Hkw Hkt Hkp. rewrite Heq.
  by apply insertText_keyword_free.
Qed.

Lemma C6_insert_ignores_clauses_witness :
  buildSQL (InsertWithClauses.node "users") 0
  = text ["INSERT INTO users (name)"; "VALUES ('Bo');"]
  /\ Forall (fun kw => JS.includes kw
                         (buildSQL (InsertWithClauses.node "users") 0) = false)
            clauseKeywords.
Proof.
  destruct (C6_insert_ignores_clauses (InsertWithClauses.node "users") 0)
    as [Heq Hfree].
  - reflexivity.
  - discriminate.
  - discriminate.
  - split; [rewrite Heq; reflexivity|].
    apply Forall_forall. intros kw Hkw. apply Hfree; [exact Hkw | |].
    + unfold clauseKeywords in Hkw. rewrite !elem_of_cons in Hkw.
      destruct Hkw as [->|[->|[->|[->|[]%elem_of_nil]]]]; reflexivity.
    + unfold clauseKeywords in Hkw. rewrite !elem_of_cons in Hkw.
      destruct Hkw as [->|[->|[->|[->|[]%elem_of_nil]]]];
        repeat constructor.
Defined.

(** C6 as it is written fails: the table name is copied into the text, so
    an INSERT into [LIMITS] contains [LIMIT]. *)
Lemma C6_keyword_in_table_name :
  JS.includes "LIMIT" (buildSQL (InsertWithClauses.node "LIMITS") 0) = true.
Proof. vm_compute. reflexivity. Qed.

(** C7, as the compiler has it. A SELECT, UPDATE or DELETE node without
    conditions gets no WHERE clause: [buildWhereClause] adds the empty
    string, and [WHERE] is in the compiled text only if it is in one of the
    strings of the node (table, selectColumns, limit, the pairs, the joins,
    the orderBy columns). *)
Theorem C7_no_conditions_no_where (node : QueryNode) (depth : nat) :
  operation node <> INSERT ->
  conditions node = [] ->
  buildWhereClause buildSQL (conditions node) (subQueries node) depth
    (JS.repeat "  " depth) (JS.repeat "  " (depth + 1)) = ""
  /\ (keyword_free "WHERE" node ->
      JS.includes "WHERE" (buildSQL node depth) = false).
Proof.
  intros _ Hc. split; [by rewrite Hc|]. intros Hfree.
  rewrite buildSQL_unfold. by apply where_free_buildSQL_body.
Qed.

Lemma C7_no_conditions_no_where_witness :
  JS.includes "WHERE" (buildSQL Scenario.A 2) = false.
Proof.
  refine (proj2 (C7_no_conditions_no_where Scenario.A 2 _ eq_refl) _).
  - discriminate.
  - unfold keyword_free. simpl. repeat split; constructor.
Defined.

(** C7 as it is written fails: a SELECT from a table named [WHERE] has no
    condition and still contains [WHERE]. *)
Lemma C7_where_in_table_name :
  let node := {| node_id := "n"; operation := SELECT; table := "WHERE";
                 selectColumns := "*"; pairs := []; conditions := [];
                 joins := []; orderBy := []; limit := "";
                 subQueries := ∅ |} in
  conditions node = []
  /\ JS.includes "WHERE" (buildSQL node 0) = true.
Proof. split; [reflexivity | vm_compute; reflexivity]. Qed.

(** C8. Compiling a node at depth 0 and at depth 2 gives two texts with the
    same lines once the white space that opens each line is removed. *)
Theorem C8_depth_changes_indentation_only (node : QueryNode) :
  map JS.trimStart (JS.split JS.LF (buildSQL node 0))
  = map JS.trimStart (JS.split JS.LF (buildSQL node 2)).
Proof.
  rewrite <- !(proj1 (split_strip _)).
  by rewrite (proj1 (sim_buildSQL node 0 2)).
Qed.




Lemma trim_all_white s : all_white s = true -> JS.trim s = "".
Proof.
  unfold JS.trim. induction s as [|c s IH]; [done|]. simpl.
  intros [Hc Hs]%andb_true_iff. rewrite Hc. by apply IH.
Qed.

Lemma appendJoin_extends indent joins : forall sql,
  exists rest, fold_left (appendJoin indent) joins sql = sql +:+ rest.
Proof.
  induction joins as [|j joins IH]; intros sql.
  { exists "". by rewrite append_nil_r. }
  simpl. unfold appendJoin at 2.
  destruct (JS.truthy (join_table j) && JS.truthy (join_onLeft j)
            && JS.truthy (join_onRight j)); [|apply IH].
  destruct (IH (sql +:+ JS.nl +:+ indent +:+ join_type_text (join_type j)
                  +:+ " JOIN " +:+ join_table j +:+ " ON " +:+ join_onLeft j
                  +:+ " = " +:+ join_onRight j)) as [rest ->].
  rewrite append_assoc. by eexists.
Qed.

Lemma buildSelect_shape (node : QueryNode) (depth : nat) :
  operation node = SELECT -> table node <> "" ->
  exists rest,
    buildSQL node depth
    = "SELECT " +:+ JS.or_else (JS.trim (selectColumns node)) "*" +:+ JS.nl
        +:+ JS.repeat "  " depth +:+ "FROM " +:+ table node +:+ rest.
Proof.
  intros Hop Ht. rewrite buildSQL_unfold. unfold buildSQL_body. rewrite Hop.
  unfold buildSelect. apply truthy_true in Ht. rewrite Ht. simpl negb.
  cbv iota zeta.
  set (cols := JS.or_else (JS.trim (selectColumns node)) "*").
  destruct (appendJoin_extends (JS.repeat "  " depth) (joins node)
              ("SELECT " +:+ cols +:+ JS.nl +:+ JS.repeat "  " depth
                 +:+ "FROM " +:+ table node)) as [r1 ->].
  set (w := buildWhereClause _ _ _ _ _ _).
  set (base := "SELECT " +:+ cols +:+ JS.nl +:+ JS.repeat "  " depth
                 +:+ "FROM " +:+ table node).
  assert (exists r2,
            match orderBy node with
            | [] => (base +:+ r1) +:+ w
            | _ :: _ =>
                if JS.truthy (orderByColumns (orderBy node))
                then ((base +:+ r1) +:+ w) +:+ JS.nl +:+ JS.repeat "  " depth
                       +:+ "ORDER BY " +:+ orderByColumns (orderBy node)
                else (base +:+ r1) +:+ w
            end = base +:+ r2) as [r2 ->].
  { destruct (orderBy node) as [|o os];
      [|destruct (JS.truthy (orderByColumns (o :: os)))];
      eexists; rewrite ?append_assoc; reflexivity. }
  assert (exists r3,
            (if JS.truthy (limit node)
             then (base +:+ r2) +:+ JS.nl +:+ JS.repeat "  " depth
                    +:+ "LIMIT " +:+ limit node
             else base +:+ r2) +:+ ";" = base +:+ r3) as [r3 ->].
  { destruct (JS.truthy (limit node));
      eexists; rewrite ?append_assoc; reflexivity. }
  exists r3. subst base. rewrite !append_assoc. reflexivity.
Qed.

(** C10. For a SELECT node with a table, blank-detection differs between
    the two fields. A selectColumns string of white space only is rendered
    as [*], whatever the table. A table string of white space only (and
    not empty), though [trim] would empty it as well, counts as filled in,
    whatever the columns: the output is not the table-name placeholder; it
    is [SELECT <cols>], a line feed, the padding of the depth, [FROM ] and
    that white space as it is, followed by the rest of the statement. *)
Theorem C10_blank_columns_but_not_blank_table (node : QueryNode)
    (depth : nat) :
  operation node = SELECT ->
  table node <> "" ->
  (all_white (selectColumns node) = true ->
     exists rest,
       buildSQL node depth
       = "SELECT *" +:+ JS.nl +:+ JS.repeat "  " depth +:+ "FROM "
           +:+ table node +:+ rest)
  /\ (all_white (table node) = true ->
        JS.trim (table node) = ""
        /\ buildSQL node depth
           <> JS.repeat "  " depth +:+ "-- Please fill in the table name"
        /\ exists rest,
             buildSQL node depth
             = "SELECT " +:+ JS.or_else (JS.trim (selectColumns node)) "*"
                 +:+ JS.nl +:+ JS.repeat "  " depth +:+ "FROM "
                 +:+ table node +:+ rest).
Proof.
  intros Hop Ht.
  destruct (buildSelect_shape node depth Hop Ht) as [rest Hrest]. split.
  - intros Hcols. exists rest. rewrite Hrest, (trim_all_white _ Hcols).
    reflexivity.
  - intros Hwhite. split; [by apply trim_all_white|]. split; [|by exists rest].
    rewrite Hrest. destruct depth; discriminate.
Qed.

Lemma C10_blank_columns_but_not_blank_table_witness :
  let blankColumns :=
    {| node_id := "n"; operation := SELECT; table := "users";
       selectColumns := "   "; pairs := []; conditions := [];
       joins := []; orderBy := []; limit := ""; subQueries := ∅ |} in
  let blankTable :=
    {| node_id := "n"; operation := SELECT; table := "  ";
       selectColumns := "id"; pairs := []; conditions := [];
       joins := []; orderBy := []; limit := ""; subQueries := ∅ |} in
  (exists rest,
     buildSQL blankColumns 1
     = "SELECT *" +:+ JS.nl +:+ "  " +:+ "FROM " +:+ "users" +:+ rest)
  /\ buildSQL blankColumns 1 = text ["SELECT *"; "  FROM users;"]
  /\ buildSQL blankTable 1 <> "  -- Please fill in the table name"
  /\ buildSQL blankTable 1 = text ["SELECT id"; "  FROM   ;"].
Proof.
  intros blankColumns blankTable.
  destruct (C10_blank_columns_but_not_blank_table blankColumns 1)
    as [Hcols _]; [reflexivity | discriminate |].
  destruct (C10_blank_columns_but_not_blank_table blankTable 1)
    as [_ Htable]; [reflexivity | discriminate |].
  destruct (Htable eq_refl) as (_ & Hne & _).
  split; [exact (Hcols eq_refl)|].
  split; [vm_compute; reflexivity|].
  split; [exact Hne | vm_compute; reflexivity].
Defined.

(** ** Further properties of the compiler *)

Section Terminator.

Lemma endsWith_refl t : JS.endsWith t t = true.
Proof. destruct t; simpl; [done|]. by rewrite Ascii.eqb_refl, String.eqb_refl. Qed.

Lemma endsWith_app_r t s1 s2 :
  JS.endsWith t s2 = true -> JS.endsWith t (s1 +:+ s2) = true.
Proof.
  intros H. induction s1 as [|a s1 IH]; [done|].
  rewrite append_cons. cbn [JS.endsWith]. by rewrite IH, orb_true_r.
Qed.

Lemma endsWith_app t s : JS.endsWith t (s +:+ t) = true.
Proof. apply endsWith_app_r, endsWith_refl. Qed.

Lemma endsWith_semicolon_pad k s :
  JS.endsWith ";" (JS.repeat "  " k +:+ s) = JS.endsWith ";" s.
Proof. induction k as [|k IH]; [done|]. simpl. exact IH. Qed.

End Terminator.

(** X1. The compiled text ends with [;] when the compiler renders a
    statement, and does not when it returns one of the three placeholder
    comments. *)
Theorem X1_semicolon_iff_statement (node : QueryNode) (depth : nat) :
  JS.endsWith ";" (buildSQL node depth) = rendersStatement node.
Proof.
  rewrite buildSQL_unfold. unfold buildSQL_body, rendersStatement.
  unfold buildSelect, buildInsert, buildUpdate, buildDelete.
  destruct (operation node), (JS.truthy (table node)); simpl negb;
    cbv iota zeta; rewrite ?endsWith_semicolon_pad; try reflexivity;
    try apply endsWith_app.
  - destruct (filledPairs (pairs node)); [reflexivity|].
    do 8 apply endsWith_app_r. reflexivity.
  - destruct (filledPairs (pairs node));
      [by rewrite endsWith_semicolon_pad | apply endsWith_app].
Qed.

Section Pruning.

Lemma filter_idem {A} (P : A -> Prop) `{forall x, Decision (P x)} (l : list A) :
  filter P (filter P l) = filter P l.
Proof.
  induction l as [|x l IH]; [done|]. rewrite filter_cons.
  destruct (decide (P x)) as [Hx|Hx]; [|done].
  rewrite filter_cons, decide_True by done. by rewrite IH.
Qed.

Lemma fold_appendJoin_filter indent js : forall sql,
  fold_left (appendJoin indent)
    (filter (fun j => JS.truthy (join_table j) && JS.truthy (join_onLeft j)
                      && JS.truthy (join_onRight j) = true) js) sql
  = fold_left (appendJoin indent) js sql.
Proof.
  induction js as [|j js IH]; intros sql; [done|].
  rewrite filter_cons. simpl fold_left at 2. unfold appendJoin at 3.
  destruct (decide _) as [Hj|Hj].
  - simpl. unfold appendJoin at 2. rewrite Hj. apply IH.
  - apply not_true_is_false in Hj. rewrite Hj. apply IH.
Qed.

Lemma orderByColumns_filter os :
  orderByColumns (filter (fun o => JS.truthy (order_column o) = true) os)
  = orderByColumns os.
Proof. unfold orderByColumns. by rewrite filter_idem. Qed.

Lemma orderByColumns_none os :
  filter (fun o => JS.truthy (order_column o) = true) os = [] ->
  orderByColumns os = "".
Proof. intros H. unfold orderByColumns. by rewrite H. Qed.

End Pruning.

Lemma buildSQL_prune (node : QueryNode) (depth : nat) :
  buildSQL (prune node) depth = buildSQL node depth.
Proof.
  rewrite !buildSQL_unfold. destruct node as [i op t sc ps cs js os lim subs].
  unfold buildSQL_body, prune, withOrderBy, withJoins, withPairs.
  cbn [operation table selectColumns pairs conditions joins orderBy limit
       subQueries].
  destruct op.
  - unfold buildSelect.
    cbn [operation table selectColumns pairs conditions joins orderBy limit
         subQueries].
    destruct (negb (JS.truthy t)); [done|]. cbv zeta.
    rewrite fold_appendJoin_filter, orderByColumns_filter.
    destruct (filter _ os) as [|o os'] eqn:Hos; [|by destruct os].
    rewrite (orderByColumns_none os Hos). by destruct os.
  - unfold buildInsert, filledPairs. cbn [table pairs]. by rewrite filter_idem.
  - unfold buildUpdate, filledPairs.
    cbn [table pairs conditions subQueries]. by rewrite filter_idem.
  - reflexivity.
Qed.

(** X2. Rows the compiler does not render do not matter: dropping the
    pairs without a column, the joins with an empty field and the order-by
    entries without a column from a node leaves its compiled text as it
    is, at every depth. *)
Theorem X2_unrendered_rows_ignored (node : QueryNode) (depth : nat) :
  buildSQL (prune node) depth = buildSQL node depth.
Proof. apply buildSQL_prune. Qed.

Section WhereChain.

Variable self : QueryNode -> nat -> string.

(** The WHERE clause reads the subquery map only through the children
    attached to its conditions. *)
Lemma buildWhereClause_attached conds subs1 subs2 depth indent inner :
  (forall c, c ∈ conds -> attachedSubQuery c subs1 = attachedSubQuery c subs2) ->
  buildWhereClause self conds subs1 depth indent inner
  = buildWhereClause self conds subs2 depth indent inner.
Proof.
  intros Hc. unfold buildWhereClause. destruct conds as [|c0 conds]; [done|].
  do 4 f_equal. apply imap_ext. intros i c Hi.
  apply list_elem_of_lookup_2 in Hi.
  unfold conditionPart, conditionClause, resolveConditionValue.
  by rewrite (Hc c Hi).
Qed.

Lemma buildSQL_body_attached node subs depth :
  (forall c, c ∈ conditions node ->
     attachedSubQuery c subs = attachedSubQuery c (subQueries node)) ->
  buildSQL_body self (withSubQueries node subs) depth
  = buildSQL_body self node depth.
Proof.
  intros Hc. destruct node as [i op t sc ps cs js os lim subs0].
  unfold buildSQL_body, withSubQueries, buildSelect, buildUpdate, buildDelete.
  cbn [operation table selectColumns pairs conditions joins orderBy limit
       subQueries] in *.
  destruct op; [|done| |];
    by rewrite (buildWhereClause_attached cs subs subs0 _ _ _ Hc).
Qed.

End WhereChain.

(** X3. The logic gate of the first condition is never rendered: with
    AND or OR on the condition that opens the WHERE chain the compiled
    text is the same. *)
Theorem X3_first_logic_ignored (node : QueryNode) (c : Condition)
    (cs : list Condition) (g : LogicGate) (depth : nat) :
  conditions node = c :: cs ->
  buildSQL (withConditions node (Editor.setLogic c g :: cs)) depth
  = buildSQL node depth.
Proof.
  intros Hcs. rewrite !buildSQL_unfold.
  destruct node as [i op t sc ps cs0 js os lim subs].
  cbn [conditions] in Hcs. subst cs0.
  unfold buildSQL_body, withConditions, buildSelect, buildUpdate, buildDelete.
  cbn [operation table selectColumns pairs conditions joins orderBy limit
       subQueries].
  assert (forall indent inner,
    buildWhereClause buildSQL (Editor.setLogic c g :: cs) subs depth indent inner
    = buildWhereClause buildSQL (c :: cs) subs depth indent inner) as Hw.
  { intros indent inner. unfold buildWhereClause. by rewrite !imap_cons. }
  destruct op; [|done| |]; by rewrite Hw.
Qed.

Lemma X3_first_logic_ignored_witness :
  buildSQL (withConditions Scenario.E
              (Editor.setLogic
                 {| cond_id := "c1"; cond_column := "status";
                    cond_operator := OpIsNull; cond_value := "";
                    cond_logic := AND; cond_subQueryId := None |} OR
               :: tail (conditions Scenario.E))) 0
  = buildSQL Scenario.E 0.
Proof.
  exact (X3_first_logic_ignored Scenario.E _ _ OR 0 eq_refl).
Defined.

(** X4. A subquery no condition refers to is never compiled: deleting
    such a key from the subquery map, or storing any node under it, leaves
    the compiled text as it is. *)
Theorem X4_unreferenced_subquery_ignored (node other : QueryNode)
    (k : string) (depth : nat) :
  (forall c, c ∈ conditions node -> cond_subQueryId c <> Some k) ->
  buildSQL (withSubQueries node (delete k (subQueries node))) depth
  = buildSQL node depth
  /\ buildSQL (Editor.updateSubQuery k other node) depth
     = buildSQL node depth.
Proof.
  intros Hk. unfold Editor.updateSubQuery.
  split; rewrite !buildSQL_unfold; apply buildSQL_body_attached;
    intros c Hc; specialize (Hk c Hc); unfold attachedSubQuery;
    destruct (cond_subQueryId c) as [k'|]; try done;
    destruct (JS.truthy k'); try done.
  - apply lookup_delete_ne. congruence.
  - apply lookup_insert_ne. congruence.
Qed.

Lemma X4_unreferenced_subquery_ignored_witness :
  buildSQL (Editor.updateSubQuery "orphan" Scenario.A Scenario.E) 0
  = buildSQL Scenario.E 0.
Proof.
  refine (proj2 (X4_unreferenced_subquery_ignored Scenario.E Scenario.A
                   "orphan" 0 _)).
  intros c Hc. cbn in Hc. rewrite !elem_of_cons in Hc.
  destruct Hc as [->|[->|[]%elem_of_nil]]; discriminate.
Defined.

Section Reindent.

(** [reindent] character by character: the padding goes in after each
    line feed. *)
Lemma reindent_nil pad : reindent pad "" = "".
Proof. done. Qed.

Lemma reindent_cons pad a s :
  reindent pad (String a s)
  = if Ascii.eqb a JS.LF then JS.nl +:+ pad +:+ reindent pad s
    else String a (reindent pad s).
Proof.
  destruct (reindent_lines pad s) as (l & ls & Hs & Hr).
  destruct (reindent_lines pad (String a s)) as (l' & ls' & Hs' & ->).
  rewrite Hr. simpl in Hs'. rewrite Hs in Hs'.
  destruct (Ascii.eqb a JS.LF); injection Hs' as <- <-.
  - change (map (String.append pad) (l :: ls))
      with ((pad +:+ l) :: map (String.append pad) ls).
    change (JS.join JS.nl ("" :: (pad +:+ l) :: map (String.append pad) ls))
      with (JS.nl +:+ JS.join JS.nl ((pad +:+ l) :: map (String.append pad) ls)).
    by rewrite join_cons_app.
  - apply (join_cons_app JS.nl (String a "") l).
Qed.

Lemma reindent_line pad u : mentions JS.LF u = false -> reindent pad u = u.
Proof.
  induction u as [|b u IHu]; intros Hu; [done|].
  cbn [mentions] in Hu. apply orb_false_iff in Hu as [Hb Hu].
  rewrite reindent_cons, Ascii.eqb_sym, Hb. by rewrite IHu.
Qed.

Lemma reindent_app_line pad s u :
  mentions JS.LF u = false -> reindent pad (s +:+ u) = reindent pad s +:+ u.
Proof.
  intros Hu. induction s as [|a s IH].
  - change ("" +:+ u) with u. by rewrite reindent_line.
  - rewrite append_cons, !reindent_cons, IH.
    destruct (Ascii.eqb a JS.LF); [|done].
    by rewrite !append_assoc.
Qed.

Lemma mentions_pad c k s :
  Ascii.eqb c " " = false ->
  mentions c (JS.repeat "  " k +:+ s) = mentions c s.
Proof. intros Hc. induction k as [|k IH]; [done|]. simpl. by rewrite Hc, IH. Qed.

(** A rendered statement is some text and a closing [;]. *)
Lemma buildSQL_statement node depth :
  rendersStatement node = true ->
  exists body, buildSQL node depth = body +:+ ";".
Proof.
  rewrite buildSQL_unfold. unfold buildSQL_body, rendersStatement.
  unfold buildSelect, buildInsert, buildUpdate, buildDelete.
  destruct (JS.truthy (table node)); [|done]. simpl negb. cbv iota zeta.
  destruct (operation node); intros Hr; try by eexists.
  - destruct (filledPairs (pairs node)); [done|].
    eexists. change ");" with (")" +:+ ";"). rewrite <- !append_assoc.
    reflexivity.
  - destruct (filledPairs (pairs node)); [done|]. by eexists.
Qed.

End Reindent.

(** X5. A subquery is wrapped together with its own terminator: when the
    child attached to a condition renders a statement, the operand that
    [resolveConditionValue] returns ends with the [;] of the child, a line
    feed, the padding of depth+1 and the closing parenthesis. *)
Theorem X5_subquery_keeps_its_semicolon (c : Condition)
    (subs : gmap string QueryNode) (child : QueryNode) (depth : nat) :
  attachedSubQuery c subs = Some child ->
  rendersStatement child = true ->
  JS.endsWith (";" +:+ JS.nl +:+ JS.repeat "  " (depth + 1) +:+ ")")
    (resolveConditionValue buildSQL c subs depth) = true.
Proof.
  intros Hc Hr. unfold resolveConditionValue. rewrite Hc.
  destruct (buildSQL_statement child (depth + 2) Hr) as [body ->].
  rewrite reindent_app_line by reflexivity.
  do 3 apply endsWith_app_r. rewrite append_assoc. apply endsWith_app.
Qed.

Lemma X5_subquery_keeps_its_semicolon_witness :
  JS.endsWith (text [";"; "  )"])
    (resolveConditionValue buildSQL
       {| cond_id := "c2"; cond_column := "customer_id"; cond_operator := OpIn;
          cond_value := ""; cond_logic := OR; cond_subQueryId := Some "sq1" |}
       (subQueries Scenario.E) 0) = true.
Proof.
  refine (X5_subquery_keeps_its_semicolon _ _ Scenario.vip 0 _ eq_refl).
  vm_compute. reflexivity.
Defined.

(** ** The editor keeps conditions and subqueries linked *)

Section Linked.

Lemma elem_of_map {A B} (f : A -> B) (l : list A) (y : B) :
  y ∈ map f l <-> exists x, y = f x /\ x ∈ l.
Proof.
  rewrite list_elem_of_In, in_map_iff. split.
  - intros (x & <- & Hx). exists x. by rewrite list_elem_of_In.
  - intros (x & -> & Hx). exists x. by rewrite <- list_elem_of_In.
Qed.

Lemma ids_unique (conds : list Condition) (c1 c2 : Condition) :
  NoDup (map cond_id conds) -> c1 ∈ conds -> c2 ∈ conds ->
  cond_id c1 = cond_id c2 -> c1 = c2.
Proof.
  induction conds as [|x l IH]; intros Hnd H1 H2 Hid.
  { by apply elem_of_nil in H1. }
  cbn [map] in Hnd. apply NoDup_cons in Hnd as [Hx Hnd].
  apply elem_of_cons in H1 as [->|H1]; apply elem_of_cons in H2 as [->|H2].
  - done.
  - exfalso. apply Hx. rewrite Hid. apply elem_of_map. by exists c2.
  - exfalso. apply Hx. rewrite <- Hid. apply elem_of_map. by exists c1.
  - by apply IH.
Qed.

Lemma NoDup_ids_filter (P : Condition -> Prop) `{forall c, Decision (P c)}
    (conds : list Condition) :
  NoDup (map cond_id conds) -> NoDup (map cond_id (filter P conds)).
Proof.
  induction conds as [|x l IH]; intros Hnd; [done|].
  cbn [map] in Hnd. apply NoDup_cons in Hnd as [Hx Hnd].
  rewrite filter_cons. destruct (decide (P x)); [|by apply IH].
  cbn [map]. apply NoDup_cons. split; [|by apply IH].
  intros (c & Hc & [_ Hin]%list_elem_of_filter)%elem_of_map.
  apply Hx. apply elem_of_map. by exists c.
Qed.

Lemma map_ids_keep (g : Condition -> Condition) (conds : list Condition) :
  (forall c, cond_id (g c) = cond_id c) ->
  map cond_id (map g conds) = map cond_id conds.
Proof.
  intros Hg. rewrite map_map. apply map_ext. intros c. apply Hg.
Qed.

(** [find] returns the condition with that id, when there is one. *)
Lemma find_by_id (conds : list Condition) (id : string) :
  match List.find (fun c => String.eqb (cond_id c) id) conds with
  | Some c => c ∈ conds /\ cond_id c = id
  | None => forall c, c ∈ conds -> cond_id c <> id
  end.
Proof.
  destruct (List.find _ conds) as [c|] eqn:Hf.
  - apply find_some in Hf as [Hin Heq]. split; [by apply list_elem_of_In|].
    by apply String.eqb_eq.
  - intros c Hc%list_elem_of_In Hid.
    pose proof (find_none _ _ Hf c Hc) as Hne. cbn beta in Hne.
    by rewrite Hid, String.eqb_refl in Hne.
Qed.

End Linked.

Lemma removeCondition_linked (node : QueryNode) (id : string) :
  linked node -> linked (Editor.removeCondition id node).
Proof.
  intros [Hids Htr Hres Href Honce].
  destruct node as [i op t sc ps cs js os lim subs].
  cbn [conditions subQueries] in *.
  pose proof (find_by_id cs id) as Hfind.
  unfold Editor.removeCondition. cbn [conditions subQueries].
  assert (forall c, c ∈ filter (fun c => cond_id c <> id) cs ->
                    c ∈ cs /\ cond_id c <> id) as Hmem.
  { intros c [? ?]%list_elem_of_filter. done. }
  assert (NoDup (map cond_id (filter (fun c => cond_id c <> id) cs))) as Hnd.
  { by apply NoDup_ids_filter. }
  (* the cases in which the map is left as it is *)
  assert ((forall c k, c ∈ cs -> cond_id c = id ->
             cond_subQueryId c <> Some k) ->
          linked (withConditions
                    (mkQueryNode i op t sc ps cs js os lim subs)
                    (filter (fun c => cond_id c <> id) cs))) as Hsame.
  { intros Hnone. split; simpl.
    - exact Hnd.
    - intros c k [Hc _]%Hmem. by apply Htr.
    - intros c k [Hc _]%Hmem. by apply Hres.
    - intros k Hk. destruct (Href k Hk) as (c & Hc & Hck).
      exists c. split; [|done]. apply list_elem_of_filter. split; [|done].
      intros Hid. by apply (Hnone c k).
    - intros c1 c2 k [H1 _]%Hmem [H2 _]%Hmem. by apply Honce. }
  destruct (List.find _ cs) as [c0|].
  2: { apply Hsame. intros c k Hc Hid. by destruct (Hfind c Hc). }
  destruct Hfind as [Hc0 Hid0].
  destruct (cond_subQueryId c0) as [k0|] eqn:Hk0.
  2: { apply Hsame. intros c k Hc Hid Hck.
       assert (c = c0) as -> by (apply (ids_unique cs); congruence).
       congruence. }
  pose proof (Htr c0 k0 Hc0 Hk0) as Hne. apply truthy_true in Hne.
  rewrite Hne. split; simpl.
  - exact Hnd.
  - intros c k [Hc _]%Hmem. by apply Htr.
  - intros c k [Hc Hid]%Hmem Hck.
    rewrite lookup_delete_ne; [by eapply Hres|].
    intros <-. apply Hid. rewrite (Honce c c0 k0 Hc Hc0 Hck Hk0). done.
  - intros k Hk. destruct (decide (k0 = k)) as [<-|Hkk].
    { rewrite lookup_delete_eq in Hk. by destruct Hk. }
    rewrite lookup_delete_ne in Hk by done.
    destruct (Href k Hk) as (c & Hc & Hck).
    exists c. split; [|done]. apply list_elem_of_filter. split; [|done].
    intros Hid.
    assert (c = c0) as -> by (apply (ids_unique cs); congruence).
    congruence.
  - intros c1 c2 k [H1 _]%Hmem [H2 _]%Hmem. by apply Honce.
Qed.

Lemma scenario_E_linked : linked Scenario.E.
Proof.
  split; cbn [Scenario.E conditions subQueries].
  - cbn. compute_done.
  - intros c k Hc Hk. rewrite !elem_of_cons in Hc.
    destruct Hc as [->|[->|[]%elem_of_nil]]; cbn in Hk; by simplify_eq.
  - intros c k Hc Hk. rewrite !elem_of_cons in Hc.
    destruct Hc as [->|[->|[]%elem_of_nil]]; cbn in Hk; simplify_eq.
    by rewrite lookup_singleton_eq.
  - intros k [x Hk]. apply lookup_singleton_Some in Hk as [<- _].
    eexists. split; [apply elem_of_cons; right; apply elem_of_cons; by left|].
    done.
  - intros c1 c2 k H1 H2 Hk1 Hk2. rewrite !elem_of_cons in H1, H2.
    destruct H1 as [->|[->|[]%elem_of_nil]];
      destruct H2 as [->|[->|[]%elem_of_nil]]; cbn in *; by simplify_eq.
Qed.

(** What [removeCondition] does to the map: the key of each removed
    condition goes, every other key stays as it was. *)
Lemma removeCondition_subQueries (node : QueryNode) (id : string) :
  linked node ->
  (forall c k, c ∈ conditions node -> cond_id c = id ->
     cond_subQueryId c = Some k ->
     subQueries (Editor.removeCondition id node) !! k = None)
  /\ (forall k,
        (forall c, c ∈ conditions node -> cond_id c = id ->
           cond_subQueryId c <> Some k) ->
        subQueries (Editor.removeCondition id node) !! k
        = subQueries node !! k).
Proof.
  intros [Hids Htr Hres Href Honce].
  pose proof (find_by_id (conditions node) id) as Hfind.
  unfold Editor.removeCondition.
  destruct (List.find _ (conditions node)) as [c0|].
  2: { split; [|done]. intros c k Hc Hid. by destruct (Hfind c Hc). }
  destruct Hfind as [Hc0 Hid0].
  destruct (cond_subQueryId c0) as [k0|] eqn:Hk0.
  2: { split; [|done]. intros c k Hc Hid Hck.
       assert (c = c0) as -> by (apply (ids_unique (conditions node)); congruence).
       congruence. }
  pose proof (Htr c0 k0 Hc0 Hk0) as Hne. apply truthy_true in Hne.
  rewrite Hne. cbn [withSubQueries withConditions subQueries]. split.
  - intros c k Hc Hid Hck.
    assert (c = c0) as -> by (apply (ids_unique (conditions node)); congruence).
    assert (k = k0) as -> by congruence. apply lookup_delete_eq.
  - intros k Hk. apply lookup_delete_ne. intros <-. by apply (Hk c0).
Qed.

Lemma removeCondition_fields (node : QueryNode) (id : string) :
  conditions (Editor.removeCondition id node)
  = filter (fun c => cond_id c <> id) (conditions node)
  /\ withSubQueries
       (withConditions (Editor.removeCondition id node) (conditions node))
       (subQueries node) = node.
Proof.
  destruct node as [i op t sc ps cs js os lim subs].
  unfold Editor.removeCondition. cbn [conditions subQueries].
  destruct (List.find _ cs) as [c0|]; [|done].
  destruct (cond_subQueryId c0) as [k0|]; [|done].
  by destruct (JS.truthy k0).
Qed.

(** X6. Removing a condition from a linked node: the conditions with
    that id go and the others stay in order; the subquery of a removed
    condition leaves the map; every key no removed condition refers to
    keeps its node, so no other condition loses its subquery; no other
    field changes; and the node is linked again. *)
Theorem X6_removeCondition_keeps_linked (node : QueryNode) (id : string) :
  linked node ->
  linked (Editor.removeCondition id node)
  /\ conditions (Editor.removeCondition id node)
     = filter (fun c => cond_id c <> id) (conditions node)
  /\ (forall c k, c ∈ conditions node -> cond_id c = id ->
        cond_subQueryId c = Some k ->
        subQueries (Editor.removeCondition id node) !! k = None)
  /\ (forall k,
        (forall c, c ∈ conditions node -> cond_id c = id ->
           cond_subQueryId c <> Some k) ->
        subQueries (Editor.removeCondition id node) !! k
        = subQueries node !! k)
  /\ (forall c k, c ∈ conditions node -> cond_id c <> id ->
        cond_subQueryId c = Some k ->
        c ∈ conditions (Editor.removeCondition id node)
        /\ subQueries (Editor.removeCondition id node) !! k
           = subQueries node !! k)
  /\ withSubQueries
       (withConditions (Editor.removeCondition id node) (conditions node))
       (subQueries node) = node.
Proof.
  intros Hl.
  destruct (removeCondition_subQueries node id Hl) as [Hgone Hkept].
  destruct (removeCondition_fields node id) as [Hconds Hrest].
  split; [by apply removeCondition_linked|].
  split; [exact Hconds|]. split; [exact Hgone|]. split; [exact Hkept|].
  split; [|exact Hrest].
  intros c k Hc Hid Hck. split.
  - rewrite Hconds. by apply list_elem_of_filter.
  - apply Hkept. intros c' Hc' Hid' Hck'.
    apply Hid. rewrite (linked_once node Hl c c' k Hc Hc' Hck Hck'). done.
Qed.

Lemma X6_removeCondition_keeps_linked_witness :
  linked Scenario.E
  /\ linked (Editor.removeCondition "c2" Scenario.E)
  /\ subQueries (Editor.removeCondition "c2" Scenario.E) !! "sq1" = None
  /\ map cond_id (conditions (Editor.removeCondition "c2" Scenario.E))
     = ["c1"].
Proof.
  destruct (X6_removeCondition_keeps_linked Scenario.E "c2" scenario_E_linked)
    as (Hl & Hconds & Hgone & _).
  split; [exact scenario_E_linked|]. split; [exact Hl|]. split.
  - apply (Hgone
             {| cond_id := "c2"; cond_column := "customer_id";
                cond_operator := OpIn; cond_value := ""; cond_logic := OR;
                cond_subQueryId := Some "sq1" |} "sq1");
      [|reflexivity|reflexivity].
    simpl. apply elem_of_cons. right. apply elem_of_cons. by left.
  - rewrite Hconds. reflexivity.
Defined.

(** X7. Attaching a subquery to a condition that has none keeps the node
    linked, provided the id drawn for the subquery is not empty and is not
    yet a key of the map. *)
Theorem X7_attachSubQuery_keeps_linked (node : QueryNode)
    (sqId pairId condId : string) (c0 : Condition) :
  linked node ->
  sqId <> "" -> subQueries node !! sqId = None ->
  c0 ∈ conditions node -> cond_id c0 = condId -> cond_subQueryId c0 = None ->
  linked (Editor.attachSubQuery sqId pairId condId node).
Proof.
  intros [Hids Htr Hres Href Honce] Hsq Hfresh Hc0 Hid0 Hnone.
  destruct node as [i op t sc ps cs js os lim subs].
  cbn [conditions subQueries] in *.
  set (g := fun c => if decide (cond_id c = condId)
                     then Editor.setSubQueryId c (Some sqId) else c).
  assert (forall c, cond_id (g c) = cond_id c) as Hgid.
  { intros c. unfold g. by destruct (decide _). }
  assert (forall c, c ∈ cs -> cond_id c = condId -> c = c0) as Huniq.
  { intros c Hc Hid. apply (ids_unique cs); congruence. }
  assert (forall c k, c ∈ cs -> cond_subQueryId (g c) = Some k ->
            (cond_id c = condId /\ k = sqId)
            \/ (cond_id c <> condId /\ g c = c /\ cond_subQueryId c = Some k))
    as Hcase.
  { intros c k Hc Hk. unfold g in *. destruct (decide (cond_id c = condId)).
    - left. cbn in Hk. by simplify_eq.
    - right. done. }
  unfold Editor.attachSubQuery. split; simpl; fold g.
  - by rewrite map_ids_keep.
  - intros c' k (c & -> & Hc)%elem_of_map Hk.
    destruct (Hcase c k Hc Hk) as [[_ ->]|(_ & _ & Hck)]; [done|].
    by eapply Htr.
  - intros c' k (c & -> & Hc)%elem_of_map Hk.
    destruct (Hcase c k Hc Hk) as [[_ ->]|(_ & _ & Hck)].
    + by rewrite lookup_insert_eq.
    + apply lookup_insert_is_Some'. right. by eapply Hres.
  - intros k Hk. apply lookup_insert_is_Some' in Hk.
    destruct (decide (sqId = k)) as [<-|Hne].
    + exists (g c0). split; [apply elem_of_map; by exists c0|].
      unfold g. by rewrite decide_True.
    + destruct Hk as [?|Hk]; [done|].
      destruct (Href k Hk) as (c & Hc & Hck).
      exists c. split; [|done]. apply elem_of_map. exists c. split; [|done].
      unfold g. rewrite decide_False; [done|].
      intros Hid. rewrite (Huniq c Hc Hid) in Hck. congruence.
  - intros c1' c2' k (c1 & -> & H1)%elem_of_map (c2 & -> & H2)%elem_of_map
           Hk1 Hk2.
    destruct (Hcase c1 k H1 Hk1) as [[Hi1 ->]|(_ & Hg1 & Hck1)];
      destruct (Hcase c2 _ H2 Hk2) as [[Hi2 E2]|(_ & Hg2 & Hck2)].
    + by rewrite (Huniq c1 H1 Hi1), (Huniq c2 H2 Hi2).
    + destruct (Hres c2 sqId H2 Hck2) as [x Hx]. congruence.
    + subst k. destruct (Hres c1 sqId H1 Hck1) as [x Hx]. congruence.
    + rewrite Hg1, Hg2. by eapply Honce.
Qed.

Lemma X7_attachSubQuery_keeps_linked_witness :
  linked (Editor.attachSubQuery "sq2" "p2" "c1" Scenario.E).
Proof.
  eapply (X7_attachSubQuery_keeps_linked Scenario.E "sq2" "p2" "c1").
  - exact scenario_E_linked.
  - discriminate.
  - by vm_compute.
  - simpl. apply elem_of_cons. by left.
  - reflexivity.
  - reflexivity.
Defined.

Lemma detachSubQuery_linked (node : QueryNode)
    (condId sqId : string) (c0 : Condition) :
  linked node ->
  c0 ∈ conditions node -> cond_id c0 = condId ->
  cond_subQueryId c0 = Some sqId ->
  linked (Editor.detachSubQuery condId sqId node).
Proof.
  intros [Hids Htr Hres Href Honce] Hc0 Hid0 Hsq0.
  destruct node as [i op t sc ps cs js os lim subs].
  cbn [conditions subQueries] in *.
  set (g := fun c => if decide (cond_id c = condId)
                     then Editor.clearSubQuery c else c).
  assert (forall c, cond_id (g c) = cond_id c) as Hgid.
  { intros c. unfold g. by destruct (decide _). }
  assert (forall c, c ∈ cs -> cond_id c = condId -> c = c0) as Huniq.
  { intros c Hc Hid. apply (ids_unique cs); congruence. }
  assert (forall c k, c ∈ cs -> cond_subQueryId (g c) = Some k ->
            cond_id c <> condId /\ g c = c /\ cond_subQueryId c = Some k
            /\ k <> sqId) as Hcase.
  { intros c k Hc Hk. unfold g in *. destruct (decide (cond_id c = condId)).
    - done.
    - repeat split; try done. intros ->.
      by rewrite (Honce c c0 sqId Hc Hc0 Hk Hsq0) in n. }
  unfold Editor.detachSubQuery. split; simpl; fold g.
  - by rewrite map_ids_keep.
  - intros c' k (c & -> & Hc)%elem_of_map Hk.
    destruct (Hcase c k Hc Hk) as (_ & _ & Hck & _). by eapply Htr.
  - intros c' k (c & -> & Hc)%elem_of_map Hk.
    destruct (Hcase c k Hc Hk) as (_ & _ & Hck & Hne).
    rewrite lookup_delete_ne by done. by eapply Hres.
  - intros k Hk. destruct (decide (sqId = k)) as [<-|Hne].
    { rewrite lookup_delete_eq in Hk. by destruct Hk. }
    rewrite lookup_delete_ne in Hk by done.
    destruct (Href k Hk) as (c & Hc & Hck).
    exists c. split; [|done]. apply elem_of_map. exists c. split; [|done].
    unfold g. rewrite decide_False; [done|].
    intros Hid. rewrite (Huniq c Hc Hid) in Hck. congruence.
  - intros c1' c2' k (c1 & -> & H1)%elem_of_map (c2 & -> & H2)%elem_of_map
           Hk1 Hk2.
    destruct (Hcase c1 k H1 Hk1) as (_ & Hg1 & Hck1 & _).
    destruct (Hcase c2 k H2 Hk2) as (_ & Hg2 & Hck2 & _).
    rewrite Hg1, Hg2. by eapply Honce.
Qed.

(** X8. Detaching the subquery of a condition of a linked node: the
    child leaves the map and every other key keeps its node; the condition
    is still there, with no subQueryId and an empty value; every other
    condition is still there, unchanged, and keeps its subquery; the ids of
    the conditions and the other fields are as before; and the node is
    linked again. *)
Theorem X8_detachSubQuery_keeps_linked (node : QueryNode)
    (condId sqId : string) (c0 : Condition) :
  linked node ->
  c0 ∈ conditions node -> cond_id c0 = condId ->
  cond_subQueryId c0 = Some sqId ->
  linked (Editor.detachSubQuery condId sqId node)
  /\ subQueries (Editor.detachSubQuery condId sqId node) !! sqId = None
  /\ (forall k, k <> sqId ->
        subQueries (Editor.detachSubQuery condId sqId node) !! k
        = subQueries node !! k)
  /\ Editor.clearSubQuery c0
       ∈ conditions (Editor.detachSubQuery condId sqId node)
  /\ (forall c', c' ∈ conditions (Editor.detachSubQuery condId sqId node) ->
        cond_id c' = condId ->
        cond_subQueryId c' = None /\ cond_value c' = "")
  /\ (forall c, c ∈ conditions node -> cond_id c <> condId ->
        c ∈ conditions (Editor.detachSubQuery condId sqId node)
        /\ forall k, cond_subQueryId c = Some k ->
             subQueries (Editor.detachSubQuery condId sqId node) !! k
             = subQueries node !! k)
  /\ map cond_id (conditions (Editor.detachSubQuery condId sqId node))
     = map cond_id (conditions node)
  /\ withSubQueries
       (withConditions (Editor.detachSubQuery condId sqId node)
          (conditions node))
       (subQueries node) = node.
Proof.
  intros Hl Hc0 Hid0 Hsq0.
  split; [by eapply detachSubQuery_linked|].
  destruct node as [i op t sc ps cs js os lim subs].
  unfold Editor.detachSubQuery, withSubQueries, withConditions.
  cbn [conditions subQueries node_id operation table selectColumns pairs
       joins orderBy limit] in *.
  split; [apply lookup_delete_eq|].
  split; [intros k Hk; by apply lookup_delete_ne|].
  split.
  { apply elem_of_map. exists c0. split; [|done]. by rewrite decide_True. }
  split.
  { intros c' (c & -> & Hc)%elem_of_map Hid.
    destruct (decide (cond_id c = condId)); [done|]. done. }
  split.
  { intros c Hc Hid. split.
    - apply elem_of_map. exists c. split; [|done]. by rewrite decide_False.
    - intros k Hk. apply lookup_delete_ne. intros <-.
      apply Hid.
      rewrite (linked_once _ Hl c c0 sqId Hc Hc0 Hk Hsq0). done. }
  split; [|done].
  apply map_ids_keep. intros c. by destruct (decide _).
Qed.

Lemma X8_detachSubQuery_keeps_linked_witness :
  linked (Editor.detachSubQuery "c2" "sq1" Scenario.E)
  /\ subQueries (Editor.detachSubQuery "c2" "sq1" Scenario.E) !! "sq1" = None.
Proof.
  destruct (X8_detachSubQuery_keeps_linked Scenario.E "c2" "sq1"
    {| cond_id := "c2"; cond_column := "customer_id"; cond_operator := OpIn;
       cond_value := ""; cond_logic := OR; cond_subQueryId := Some "sq1" |})
    as (Hl & Hgone & _).
  - exact scenario_E_linked.
  - simpl. apply elem_of_cons. right. apply elem_of_cons. by left.
  - reflexivity.
  - reflexivity.
  - by split.
Defined.

(** X9. Attaching a subquery and detaching it again gives the node back,
    when the id drawn for the subquery was not yet a key of the map and
    the condition had no subQueryId and an empty value before. *)
Theorem X9_attach_then_detach (node : QueryNode)
    (sqId pairId condId : string) :
  subQueries node !! sqId = None ->
  (forall c, c ∈ conditions node -> cond_id c = condId ->
     cond_subQueryId c = None /\ cond_value c = "") ->
  Editor.detachSubQuery condId sqId
    (Editor.attachSubQuery sqId pairId condId node) = node.
Proof.
  intros Hfresh Hc. destruct node as [i op t sc ps cs js os lim subs].
  cbn [conditions subQueries] in *.
  unfold Editor.detachSubQuery, Editor.attachSubQuery, withSubQueries,
    withConditions. simpl. f_equal.
  - rewrite map_map. rewrite <- (map_id cs) at 2. apply map_ext_in.
    intros c Hin%list_elem_of_In.
    destruct (decide (cond_id c = condId)) as [Hid|Hid].
    + destruct (Hc c Hin Hid) as [Hsq Hv]. simpl. rewrite decide_True by done.
      destruct c. cbn in *. by subst.
    + by rewrite decide_False.
  - by apply delete_insert_id.
Qed.

Lemma X9_attach_then_detach_witness :
  Editor.detachSubQuery "c1" "sq2"
    (Editor.attachSubQuery "sq2" "p2" "c1" Scenario.E) = Scenario.E.
Proof.
  apply X9_attach_then_detach.
  - by vm_compute.
  - intros c Hc Hid. cbn in Hc. rewrite !elem_of_cons in Hc.
    destruct Hc as [->|[->|[]%elem_of_nil]]; [done | discriminate].
Defined.

(** X10. A blank row changes nothing in the compiled text: after
    [addPair], [addJoin] or [addOrderBy] the node compiles as it did
    before, at every depth. *)
Theorem X10_blank_rows_render_nothing (node : QueryNode) (newId : string)
    (depth : nat) :
  buildSQL (Editor.addPair newId node) depth = buildSQL node depth
  /\ buildSQL (Editor.addJoin newId node) depth = buildSQL node depth
  /\ buildSQL (Editor.addOrderBy newId node) depth = buildSQL node depth.
Proof.
  assert (forall other, prune other = prune node ->
            buildSQL other depth = buildSQL node depth) as Hp.
  { intros other H.
    by rewrite <- (buildSQL_prune other), <- (buildSQL_prune node), H. }
  destruct node as [i op t sc ps cs js os lim subs].
  repeat split; apply Hp; unfold prune, filledPairs; simpl;
    rewrite filter_app, app_nil_r; reflexivity.
Qed.

Lemma attached_operand (node : QueryNode) (sqId pairId condId : string)
    (c : Condition) (depth : nat) :
  sqId <> "" ->
  resolveConditionValue buildSQL (Editor.setSubQueryId c (Some sqId))
    (subQueries (Editor.attachSubQuery sqId pairId condId node)) depth
  = "(" +:+ JS.nl +:+ JS.repeat "  " (depth + 2)
      +:+ JS.repeat "  " (depth + 2) +:+ "-- Please fill in the table name"
      +:+ JS.nl +:+ JS.repeat "  " (depth + 1) +:+ ")".
Proof.
  intros Hsq. apply truthy_true in Hsq.
  unfold resolveConditionValue, attachedSubQuery, Editor.attachSubQuery.
  cbn [Editor.setSubQueryId cond_subQueryId withSubQueries subQueries
       makeEmptyNodeWith node_id].
  rewrite Hsq, lookup_insert_eq, buildSQL_unfold.
  change (buildSQL_body buildSQL (makeEmptyNodeWith sqId pairId SELECT)
            (depth + 2))
    with (JS.repeat "  " (depth + 2) +:+ "-- Please fill in the table name").
  rewrite reindent_line by (by rewrite mentions_pad).
  by rewrite <- !append_assoc.
Qed.

(** X11. What the author sees right after attaching a subquery to a
    condition of the node (its operator not a null test): the condition
    is in the edited node with the new subQueryId, and its clause there is
    the operator (after the column, unless the operator is EXISTS or
    NOT EXISTS) followed by the table-name placeholder of the empty child,
    behind the padding of depth+2 twice, between [(] and a [)] at
    depth+1. *)
Theorem X11_attached_subquery_renders_placeholder (node : QueryNode)
    (sqId pairId condId : string) (c0 : Condition) (depth : nat) :
  c0 ∈ conditions node -> cond_id c0 = condId ->
  sqId <> "" -> isNullOp c0 = false ->
  Editor.setSubQueryId c0 (Some sqId)
    ∈ conditions (Editor.attachSubQuery sqId pairId condId node)
  /\ conditionClause buildSQL (Editor.setSubQueryId c0 (Some sqId))
       (subQueries (Editor.attachSubQuery sqId pairId condId node)) depth
     = (if isExistsOp c0 then operator_text (cond_operator c0)
        else col c0 +:+ " " +:+ operator_text (cond_operator c0))
         +:+ " (" +:+ JS.nl +:+ JS.repeat "  " (depth + 2)
         +:+ JS.repeat "  " (depth + 2) +:+ "-- Please fill in the table name"
         +:+ JS.nl +:+ JS.repeat "  " (depth + 1) +:+ ")".
Proof.
  intros Hc0 Hid Hsq Hnull. split.
  - unfold Editor.attachSubQuery.
    cbn [withSubQueries withConditions conditions makeEmptyNodeWith node_id].
    apply elem_of_map. exists c0. split; [|done]. by rewrite decide_True.
  - unfold conditionClause. rewrite attached_operand by done.
    change (isExistsOp (Editor.setSubQueryId c0 (Some sqId)))
      with (isExistsOp c0).
    change (isNullOp (Editor.setSubQueryId c0 (Some sqId)))
      with (isNullOp c0).
    change (col (Editor.setSubQueryId c0 (Some sqId))) with (col c0).
    change (cond_operator (Editor.setSubQueryId c0 (Some sqId)))
      with (cond_operator c0).
    rewrite Hnull. unfold isSubQuery.
    cbn [Editor.setSubQueryId cond_subQueryId].
    apply truthy_true in Hsq. rewrite Hsq.
    destruct (isExistsOp c0); by rewrite ?append_assoc.
Qed.

Lemma X11_attached_subquery_renders_placeholder_witness :
  let c0 := {| cond_id := "c1"; cond_column := "id"; cond_operator := OpEq;
               cond_value := "5"; cond_logic := AND;
               cond_subQueryId := None |} in
  let edited := Editor.attachSubQuery "sq9" "p9" "c1" Scenario.D in
  conditions edited = [Editor.setSubQueryId c0 (Some "sq9")]
  /\ conditionClause buildSQL (Editor.setSubQueryId c0 (Some "sq9"))
       (subQueries edited) 0
     = text ["id = ("; "        -- Please fill in the table name"; "  )"]
  /\ buildSQL edited 0
     = text [ "DELETE FROM users";
              "WHERE id = (";
              "        -- Please fill in the table name";
              "  );" ].
Proof.
  intros c0 edited.
  destruct (X11_attached_subquery_renders_placeholder Scenario.D
              "sq9" "p9" "c1" c0 0) as [_ Hclause].
  - simpl. apply elem_of_cons. by left.
  - reflexivity.
  - discriminate.
  - reflexivity.
  - split; [reflexivity|]. split; [|vm_compute; reflexivity].
    subst edited. rewrite Hclause. reflexivity.
Defined.

Section Nesting.

Lemma max_fold_le (m : gmap string nat) (b : nat) :
  (forall k h, m !! k = Some h -> h <= b) ->
  map_fold (fun _ h acc => Nat.max h acc) 0 m <= b.
Proof.
  apply (map_fold_weak_ind
    (fun acc (m : gmap string nat) =>
       (forall k h, m !! k = Some h -> h <= b) -> acc <= b)).
  - intros _. lia.
  - intros k h m' acc Hk IH Hb.
    assert (h <= b) by (apply (Hb k); by rewrite lookup_insert_eq).
    assert (acc <= b); [|lia].
    apply IH. intros k' h' Hk'. apply (Hb k').
    rewrite lookup_insert_ne; [done|]. intros <-. congruence.
Qed.

Lemma height_bound (node : QueryNode) (n : nat) :
  (forall k child, subQueries node !! k = Some child -> height child <= n) ->
  height node <= S n.
Proof.
  intros Hb. rewrite height_unfold.
  apply le_n_S, max_fold_le. intros k h Hk.
  rewrite lookup_fmap in Hk.
  destruct (subQueries node !! k) as [c|] eqn:Hc; [|done].
  cbn in Hk. injection Hk as <-. by apply (Hb k).
Qed.

Lemma height_insert (node child : QueryNode) (k : string) :
  height (withSubQueries node (<[k := child]> (subQueries node)))
  <= Nat.max (height node) (S (height child)).
Proof.
  pose proof (height_unfold node) as Hpos.
  replace (Nat.max (height node) (S (height child)))
    with (S (Nat.max (height node - 1) (height child))) by lia.
  apply height_bound. intros k' c Hk'. cbn [withSubQueries subQueries] in Hk'.
  destruct (decide (k = k')) as [<-|Hne].
  - rewrite lookup_insert_eq in Hk'. injection Hk' as <-. lia.
  - rewrite lookup_insert_ne in Hk' by done.
    pose proof (height_child node c k' Hk'). lia.
Qed.

Lemma height_withConditions (node : QueryNode) (cs : list Condition) :
  height (withConditions node cs) = height node.
Proof. by rewrite !height_unfold. Qed.

Lemma height_makeEmptyNodeWith id pairId op :
  height (makeEmptyNodeWith id pairId op) = 1.
Proof. reflexivity. Qed.

End Nesting.

(** X12. The editor does not nest past [MAX_DEPTH]. If the node shown at
    [depth] reaches no deeper than level [MAX_DEPTH], it still does so
    after the operator of a condition is changed, whatever the operator;
    and after a child edited one level down, itself within the bound, is
    stored back with [updateSubQuery]. *)
Theorem X12_nesting_stays_within_max_depth (node : QueryNode) (depth : nat) :
  height node + depth <= Editor.MAX_DEPTH + 1 ->
  (forall sqId pairId cond op,
     height (Editor.onOperatorChange depth sqId pairId cond op node) + depth
     <= Editor.MAX_DEPTH + 1)
  /\ (forall k child,
        height child + (depth + 1) <= Editor.MAX_DEPTH + 1 ->
        height (Editor.updateSubQuery k child node) + depth
        <= Editor.MAX_DEPTH + 1).
Proof.
  intros Hn. split.
  - intros sqId pairId cond op. unfold Editor.onOperatorChange.
    destruct (bool_decide _ && Editor.canNest depth && negb (isSubQuery cond))
      eqn:Hif.
    + apply andb_true_iff in Hif as [[_ Hnest]%andb_true_iff _].
      unfold Editor.canNest in Hnest. apply Nat.ltb_lt in Hnest.
      cbn [makeEmptyNodeWith node_id].
      match goal with
      | |- height (withSubQueries (withConditions _ ?cs) _) + _ <= _ =>
          pose proof (height_insert (withConditions node cs)
                        (makeEmptyNodeWith sqId pairId SELECT) sqId) as Hh;
          rewrite height_withConditions, height_makeEmptyNodeWith in Hh
      end.
      destruct node. cbn [withConditions withSubQueries subQueries] in *.
      unfold Editor.MAX_DEPTH in *. lia.
    + by rewrite height_withConditions.
  - intros k child Hc. unfold Editor.updateSubQuery.
    pose proof (height_insert node child k). lia.
Qed.

Lemma X12_nesting_stays_within_max_depth_witness :
  height (Editor.onOperatorChange 0 "sq9" "p9"
            {| cond_id := "c1"; cond_column := "status";
               cond_operator := OpIsNull; cond_value := "";
               cond_logic := AND; cond_subQueryId := None |}
            OpExists Scenario.E) + 0
  <= Editor.MAX_DEPTH + 1.
Proof.
  apply (proj1 (X12_nesting_stays_within_max_depth Scenario.E 0
                  ltac:(vm_compute; lia))).
Defined.

(** ** The page: the subquery count and the export file name *)

Section Counting.

Lemma countSubQueries_unfold (node : QueryNode) :
  Page.countSubQueries node
  = map_fold (fun _ n acc => acc + 1 + n) 0
             (Page.countSubQueries <$> subQueries node).
Proof. by destruct node. Qed.

Lemma countSubQueries_insert (node child : QueryNode) (k : string) :
  subQueries node !! k = None ->
  Page.countSubQueries (withSubQueries node (<[k := child]> (subQueries node)))
  = Page.countSubQueries node + 1 + Page.countSubQueries child.
Proof.
  intros Hk. rewrite !countSubQueries_unfold.
  cbn [withSubQueries subQueries]. rewrite fmap_insert.
  rewrite map_fold_insert_L.
  - by rewrite <- (countSubQueries_unfold child).
  - intros; lia.
  - by rewrite lookup_fmap, Hk.
Qed.

Lemma countSubQueries_withConditions (node : QueryNode)
    (cs : list Condition) :
  Page.countSubQueries (withConditions node cs) = Page.countSubQueries node.
Proof. by rewrite !countSubQueries_unfold. Qed.

End Counting.

(** X13. The subquery count of the page follows the edits: storing a
    child under a key that is not yet in the map adds one plus the count
    of the child, so attaching a fresh empty subquery adds exactly one;
    and a node has count zero exactly when its map is empty. *)
Theorem X13_countSubQueries_after_insert (node child : QueryNode)
    (k pairId condId : string) :
  subQueries node !! k = None ->
  Page.countSubQueries (Editor.updateSubQuery k child node)
  = Page.countSubQueries node + 1 + Page.countSubQueries child
  /\ Page.countSubQueries (Editor.attachSubQuery k pairId condId node)
     = Page.countSubQueries node + 1
  /\ (Page.countSubQueries node = 0 <-> subQueries node = ∅).
Proof.
  intros Hk. split; [by apply countSubQueries_insert|]. split.
  - unfold Editor.attachSubQuery. cbn [makeEmptyNodeWith node_id].
    etrans;
      [exact (countSubQueries_insert
                (withConditions node
                   (map (fun c => if decide (cond_id c = condId)
                                  then Editor.setSubQueryId c (Some k) else c)
                        (conditions node)))
                (makeEmptyNodeWith k pairId SELECT) k Hk)|].
    by rewrite countSubQueries_withConditions.
  - rewrite countSubQueries_unfold. split.
    + intros H0. apply map_eq. intros j. rewrite lookup_empty.
      destruct (subQueries node !! j) as [c|] eqn:Hj; [|done].
      rewrite (map_fold_delete_L _ _ j (Page.countSubQueries c)) in H0.
      * lia.
      * intros; lia.
      * by rewrite lookup_fmap, Hj.
    + intros ->. by rewrite fmap_empty, map_fold_empty.
Qed.

Lemma X13_countSubQueries_after_insert_witness :
  Page.countSubQueries (Editor.attachSubQuery "sq9" "p9" "c1" Scenario.E)
  = Page.countSubQueries Scenario.E + 1.
Proof.
  refine (proj1 (proj2 (X13_countSubQueries_after_insert Scenario.E
                          Scenario.A "sq9" "p9" "c1" _))).
  by vm_compute.
Defined.

Section FileName.

Lemma has_white_app s t : has_white (s +:+ t) = has_white s || has_white t.
Proof.
  induction s as [|c s IH]; [done|]. rewrite append_cons. cbn [has_white].
  by rewrite IH, orb_assoc.
Qed.

Lemma underscoreSpaces_no_white s : forall run,
  has_white (Page.underscoreSpaces run s) = false.
Proof.
  induction s as [|c s IH]; intros run; [done|]. cbn [Page.underscoreSpaces].
  destruct (JS.is_white c) eqn:Hc.
  - destruct run; [apply IH|]. cbn [has_white]. by rewrite IH.
  - cbn [has_white]. by rewrite Hc, IH.
Qed.

Lemma underscoreSpaces_keeps s : forall run,
  has_white s = false -> Page.underscoreSpaces run s = s.
Proof.
  induction s as [|c s IH]; intros run Hs; [done|]. cbn [has_white] in Hs.
  apply orb_false_iff in Hs as [Hc Hs]. cbn [Page.underscoreSpaces].
  by rewrite Hc, IH.
Qed.

End FileName.

(** X14. The file name of an export never holds white space, whatever
    the query name; a name without white space is kept as it is, before
    the extension [.sqlforge.json], and the empty name becomes
    [my_query]. *)
Theorem X14_export_file_name (queryName : string) :
  has_white (Page.exportFileName queryName) = false
  /\ (has_white queryName = false ->
      Page.exportFileName queryName
      = JS.or_else queryName "my_query" +:+ ".sqlforge.json").
Proof.
  unfold Page.exportFileName. split.
  - by rewrite has_white_app, underscoreSpaces_no_white.
  - intros Hq. rewrite underscoreSpaces_keeps; [done|].
    unfold JS.or_else. by destruct (JS.truthy queryName).
Qed.

Lemma X14_export_file_name_witness :
  Page.exportFileName "top_customers" = "top_customers.sqlforge.json".
Proof.
  exact (proj2 (X14_export_file_name "top_customers") eq_refl).
Defined.

(** ** The tree compiler against the flat builders *)

Section Flat.

Lemma whereClause_flat (conds : list Condition)
    (subs : gmap string QueryNode) :
  (forall c, c ∈ conds -> isExistsOp c = false /\ isSubQuery c = false) ->
  forall sql,
    sql +:+ buildWhereClause buildSQL conds subs 0 "" "  "
    = Legacy.appendWhere sql conds.
Proof.
  intros Hc sql. unfold buildWhereClause, Legacy.appendWhere.
  destruct conds as [|c0 conds]; [apply append_nil_r|].
  change (JS.nl +:+ "" +:+ "WHERE " +:+ ?x) with (JS.nl +:+ "WHERE " +:+ x).
  do 3 f_equal. unfold Legacy.whereParts. f_equal.
  apply imap_ext. intros i c Hi. apply list_elem_of_lookup_2 in Hi.
  destruct (Hc c Hi) as [He Hs].
  unfold conditionPart, conditionClause, col. rewrite He, Hs.
  destruct (isNullOp c); [by rewrite append_nil_r | done].
Qed.

End Flat.

(** Where the two part: with order-by rows that are all blank the flat
    builder ends on a bare [ORDER BY ], the tree compiler leaves the
    clause out. *)
Example flat_builder_bare_order_by :
  let node := Editor.addOrderBy "o1" Scenario.A in
  Legacy.sql node = text ["SELECT *"; "FROM users"; "ORDER BY ;"]
  /\ buildSQL node 0 = text ["SELECT *"; "FROM users;"].
Proof. split; vm_compute; reflexivity. Qed.

(** X15. At depth 0 the tree compiler writes what the flat builders of
    the first page write, for a node whose conditions use neither EXISTS,
    NOT EXISTS nor a subquery and whose orderBy is empty or has a column
    filled in. *)
Theorem X15_agrees_with_flat_builders (node : QueryNode) :
  (forall c, c ∈ conditions node ->
     isExistsOp c = false /\ isSubQuery c = false) ->
  (orderBy node = [] \/ orderByColumns (orderBy node) <> "") ->
  buildSQL node 0 = Legacy.sql node.
Proof.
  intros Hc Ho. rewrite buildSQL_unfold. unfold buildSQL_body, Legacy.sql.
  pose proof (whereClause_flat (conditions node) (subQueries node) Hc) as Hw.
  change (JS.repeat "  " 0) with "". change (JS.repeat "  " (0 + 1)) with "  ".
  destruct (operation node).
  - unfold buildSelect, Legacy.buildSelect.
    destruct (negb (JS.truthy (table node))); [done|]. cbv zeta.
    rewrite Hw. do 2 f_equal.
    destruct Ho as [->|Ho]; [done|]. apply truthy_true in Ho. rewrite Ho.
    by destruct (orderBy node).
  - reflexivity.
  - unfold buildUpdate, Legacy.buildUpdate, filledPairs.
    destruct (negb (JS.truthy (table node))); [done|].
    destruct (filter _ (pairs node)); [done|]. cbv zeta. by rewrite Hw.
  - unfold buildDelete, Legacy.buildDelete.
    destruct (negb (JS.truthy (table node))); [done|]. cbv zeta.
    by rewrite Hw.
Qed.

Lemma X15_agrees_with_flat_builders_witness :
  buildSQL Scenario.D 0 = Legacy.sql Scenario.D.
Proof.
  apply X15_agrees_with_flat_builders.
  - intros c Hc. cbn in Hc. rewrite elem_of_cons in Hc.
    by destruct Hc as [->|[]%elem_of_nil].
  - by left.
Defined.
